(** * cpu_usage: a shallow embedding of the kernel module [cpu_usage.c]

    The module samples the per-CPU time accounting of every online CPU,
    prints the load of the last period as a percentage and re-queues
    itself on a private workqueue until the module is unloaded.

    Machine integers are modelled as [Z] with the wrap-around written
    out.  [unsigned long] is 32 or 64 bits wide depending on the kernel
    ABI, so the width is a parameter of everything below. *)

From Stdlib Require Import ZArith List Bool Lia Permutation.
Import ListNotations.

Local Open Scope Z_scope.

(** ** Machine arithmetic *)

(** The two data models Linux is built for. *)
Inductive long_abi : Type :=
| ILP32
| LP64.

Definition BITS_PER_LONG (abi : long_abi) : Z :=
  match abi with
  | ILP32 => 32
  | LP64 => 64
  end.

(** Number of values of an [unsigned long], i.e. [ULONG_MAX + 1]. *)
Definition ulong_modulus (abi : long_abi) : Z := 2 ^ BITS_PER_LONG abi.

Definition ULONG_MAX (abi : long_abi) : Z := ulong_modulus abi - 1.

(** Number of values of an [unsigned int] (the type of the [period]
    module parameter) and of a [u64] (the type of a [cpustat] slot). *)
Definition uint_modulus : Z := 2 ^ 32.
Definition u64_modulus : Z := 2 ^ 64.

(** Conversion to [unsigned long] (what the assignment
    [unsigned long current_stat = cpu_stats.cpustat[index]] does). *)
Definition to_ulong (abi : long_abi) (x : Z) : Z := x mod ulong_modulus abi.

Definition add_ulong (abi : long_abi) (x y : Z) : Z := to_ulong abi (x + y).
Definition sub_ulong (abi : long_abi) (x y : Z) : Z := to_ulong abi (x - y).
Definition mul_ulong (abi : long_abi) (x y : Z) : Z := to_ulong abi (x * y).

(** Unsigned division; a zero divisor is a fault (a divide error trap),
    which is the [None] result. *)
Definition div_ulong (x y : Z) : option Z :=
  if y =? 0 then None else Some (x / y).

(** A value that fits an [unsigned long]. *)
Definition is_ulong (abi : long_abi) (x : Z) : Prop :=
  0 <= x < ulong_modulus abi.

Definition is_u64 (x : Z) : Prop := 0 <= x < u64_modulus.

(** ** The kernel's CPU time accounting, as the module sees it *)

(** [enum cpu_usage_stat] of <linux/kernel_stat.h>.  The header is not
    part of the module; the enumerators are listed in the kernel's order.
    [CPUTIME_FORCEIDLE] exists only under [CONFIG_SCHED_CORE], which makes
    [NR_STATS] 10 or 11. *)
Definition CPUTIME_USER : nat := 0.
Definition CPUTIME_NICE : nat := 1.
Definition CPUTIME_SYSTEM : nat := 2.
Definition CPUTIME_SOFTIRQ : nat := 3.
Definition CPUTIME_IRQ : nat := 4.
Definition CPUTIME_IDLE : nat := 5.
Definition CPUTIME_IOWAIT : nat := 6.
Definition CPUTIME_STEAL : nat := 7.
Definition CPUTIME_GUEST : nat := 8.
Definition CPUTIME_GUEST_NICE : nat := 9.
Definition CPUTIME_FORCEIDLE : nat := 10.

Definition NR_STATS (sched_core : bool) : nat :=
  if sched_core then 11%nat else 10%nat.

(** [struct kernel_cpustat { u64 cpustat[NR_STATS]; }]. *)
Record kernel_cpustat : Type := mk_kernel_cpustat {
  cpustat : list Z
}.

(** What [get_cpu_stats] reads from the kernel: the CPUs set in
    [cpu_online_mask], in the order [for_each_online_cpu] visits them,
    and [kcpustat_cpu] for every CPU number. *)
Record cpu_view : Type := mk_cpu_view {
  online_cpus : list nat;
  kcpustat_cpu : nat -> kernel_cpustat
}.

(** The [switch (index)] of the inner loop: the six labels that add the
    slot to [relevant_jiffies]; every other index matches no label. *)
Definition is_relevant_stat (index : nat) : bool :=
  (index =? CPUTIME_USER)%nat
  || (index =? CPUTIME_NICE)%nat
  || (index =? CPUTIME_SYSTEM)%nat
  || (index =? CPUTIME_IRQ)%nat
  || (index =? CPUTIME_SOFTIRQ)%nat
  || (index =? CPUTIME_STEAL)%nat.

Section Sampling.

Variable abi : long_abi.
Variable sched_core : bool.

(** One iteration of [for (int index = 0; index < NR_STATS; index++)].
    The accumulator is the pair (total_jiffies, relevant_jiffies). *)
Definition count_stat (cpu_stats : kernel_cpustat) (acc : Z * Z) (index : nat)
  : Z * Z :=
  let current_stat := to_ulong abi (nth index (cpustat cpu_stats) 0) in
  let relevant_jiffies :=
    if is_relevant_stat index
    then add_ulong abi (snd acc) current_stat
    else snd acc in
  (add_ulong abi (fst acc) current_stat, relevant_jiffies).

(** One iteration of [for_each_online_cpu(cpu_id)]. *)
Definition count_cpu (kcpustat : nat -> kernel_cpustat) (acc : Z * Z)
           (cpu_id : nat) : Z * Z :=
  fold_left (count_stat (kcpustat cpu_id)) (seq 0 (NR_STATS sched_core)) acc.

(** [get_cpu_stats]: the pair written to
    ([*output_total_jiffies], [*output_relevant_jiffies]). *)
Definition get_cpu_stats (cpus : cpu_view) : Z * Z :=
  fold_left (count_cpu (kcpustat_cpu cpus)) (online_cpus cpus) (0, 0).

End Sampling.

(** ** The load computation of [report_work_main] *)

Section Usage.

Variable abi : long_abi.

(** The argument printed with [%lu%%]:
    [(total_jiffies_diff > 0)
       ? (100 * relevant_jiffies_diff / total_jiffies_diff) : 0]. *)
Definition load_percent (total_jiffies_diff relevant_jiffies_diff : Z)
  : option Z :=
  if 0 <? total_jiffies_diff
  then div_ulong (mul_ulong abi 100 relevant_jiffies_diff) total_jiffies_diff
  else Some 0.

(** The three numbers of one measurement. *)
Record usage : Type := mk_usage {
  total_jiffies_diff : Z;
  relevant_jiffies_diff : Z;
  percent : Z
}.

(** Lines 69-75 from the previous counters ([last_total_jiffies],
    [last_relevant_jiffies]) and the ones just fetched; [None] when the
    division faults. *)
Definition compute_usage (last_total last_relevant total_jiffies relevant_jiffies : Z)
  : option usage :=
  let total_diff := sub_ulong abi total_jiffies last_total in
  let relevant_diff := sub_ulong abi relevant_jiffies last_relevant in
  match load_percent total_diff relevant_diff with
  | Some p => Some (mk_usage total_diff relevant_diff p)
  | None => None
  end.

End Usage.

(** ** Module state and the calls the module makes *)

(** A workqueue pointer returned by [alloc_workqueue]; [NULL] is [None]
    in the state below. *)
Definition workqueue := nat.

(** The global variables of the module. *)
Record module_state : Type := mk_module_state {
  cpu_usage_report_period : Z;
  cpu_usage_report_work_queue : option workqueue;
  should_work_still_run : bool;
  last_total_jiffies : Z;
  last_relevant_jiffies : Z
}.

(** The values the globals are initialised with, for a given value of
    the [period] module parameter (10 unless set at load time). *)
Definition initial_state (period : Z) : module_state :=
  mk_module_state period None true 0 0.

Definition default_period : Z := 10.

(** The lines the module prints. *)
Inductive message : Type :=
| msg_enabled (period : Z)
| msg_no_workqueue
| msg_average_load (period : Z) (load : Z)
| msg_waiting
| msg_disabled.

(** The kernel services the module calls, in program order. *)
Inductive kcall : Type :=
| pr_info (m : message)
| pr_err (m : message)
| queue_delayed_work (wq : option workqueue) (delay : Z)
| cancel_delayed_work_sync
| destroy_workqueue (wq : option workqueue).

Definition EAGAIN : Z := 11.

Definition set_last_jiffies (st : module_state) (total relevant : Z) : module_state :=
  mk_module_state (cpu_usage_report_period st)
                  (cpu_usage_report_work_queue st)
                  (should_work_still_run st)
                  total relevant.

Definition set_work_queue (st : module_state) (wq : option workqueue) : module_state :=
  mk_module_state (cpu_usage_report_period st)
                  wq
                  (should_work_still_run st)
                  (last_total_jiffies st)
                  (last_relevant_jiffies st).

Definition set_should_run (st : module_state) (b : bool) : module_state :=
  mk_module_state (cpu_usage_report_period st)
                  (cpu_usage_report_work_queue st)
                  b
                  (last_total_jiffies st)
                  (last_relevant_jiffies st).

Section Module.

Variable abi : long_abi.
Variable sched_core : bool.
(** The timer frequency, a positive [int] constant of the kernel
    configuration. *)
Variable HZ : Z.

(** [HZ * cpu_usage_report_period], an [unsigned int] product. *)
Definition report_delay (st : module_state) : Z :=
  (HZ * cpu_usage_report_period st) mod uint_modulus.

(** Lines 66-79 of [report_work_main]: fetch, print, update the last
    counters.  The result is the new state and the printed line. *)
Definition report_work_measure (cpus : cpu_view) (st : module_state)
  : option (module_state * kcall) :=
  let '(total_jiffies, relevant_jiffies) := get_cpu_stats abi sched_core cpus in
  match compute_usage abi (last_total_jiffies st) (last_relevant_jiffies st)
                      total_jiffies relevant_jiffies with
  | None => None
  | Some u =>
      Some (set_last_jiffies st total_jiffies relevant_jiffies,
            pr_info (msg_average_load (cpu_usage_report_period st) (percent u)))
  end.

(** Lines 82-83: the call made when the flag is read as [b]. *)
Definition report_work_requeue (st : module_state) (b : bool) : list kcall :=
  if b
  then [queue_delayed_work (cpu_usage_report_work_queue st) (report_delay st)]
  else [].

(** [report_work_main], run without interference. *)
Definition report_work_main (cpus : cpu_view) (st : module_state)
  : option (module_state * list kcall) :=
  match report_work_measure cpus st with
  | None => None
  | Some (st', line) =>
      Some (st', line :: report_work_requeue st' (should_work_still_run st'))
  end.

(** [cpu_usage_init]; [alloc] is what [alloc_workqueue] returns.  The
    result is the new state, the calls made and the return value. *)
Definition cpu_usage_init (alloc : option workqueue) (cpus : cpu_view)
           (st : module_state) : module_state * list kcall * Z :=
  let enabled := pr_info (msg_enabled (cpu_usage_report_period st)) in
  let st1 := set_work_queue st alloc in
  match alloc with
  | None => (st1, [enabled; pr_err msg_no_workqueue], - EAGAIN)
  | Some _ =>
      let '(total_jiffies, relevant_jiffies) := get_cpu_stats abi sched_core cpus in
      let st2 := set_last_jiffies st1 total_jiffies relevant_jiffies in
      (st2,
       [enabled;
        queue_delayed_work (cpu_usage_report_work_queue st2) (report_delay st2)],
       0)
  end.

(** [cpu_usage_exit], as a sequence of calls. *)
Definition cpu_usage_exit (st : module_state) : module_state * list kcall :=
  let st1 := set_should_run st false in
  (st1,
   [pr_info msg_waiting;
    cancel_delayed_work_sync;
    destroy_workqueue (cpu_usage_report_work_queue st1);
    pr_info msg_disabled]).

(** Successive runs of the work item, one per element of [samples],
    each on the state the previous run left.  The result lists, for
    every run, the counters it found in [last_total_jiffies] and
    [last_relevant_jiffies] and the calls it made. *)
Fixpoint run_ticks (samples : list cpu_view) (st : module_state)
  : option (module_state * list (Z * Z * list kcall)) :=
  match samples with
  | [] => Some (st, [])
  | cpus :: rest =>
      match report_work_main cpus st with
      | None => None
      | Some (st', calls) =>
          match run_ticks rest st' with
          | None => None
          | Some (st'', runs) =>
              Some (st'',
                    (last_total_jiffies st, last_relevant_jiffies st, calls) :: runs)
          end
      end
  end.

End Module.

(** ** The module together with its delayed work and the unloading thread *)

(** Where the worker executing [report_work_main] stands. *)
Inductive worker_pc : Type :=
| at_measure      (* before line 66 *)
| at_flag_check   (* before line 82 *)
| at_requeue.     (* before line 83, the flag was read as true *)

(** Where the thread executing [cpu_usage_exit] stands. *)
Inductive exit_pc : Type :=
| exit_not_called
| exit_at_cancel    (* before line 112 *)
| exit_at_destroy   (* before line 115 *)
| exit_returned.

Record system : Type := mk_system {
  globals : module_state;
  (** [cpu_usage_init] returned 0: the module stays loaded and
      [cpu_usage_exit] may be called once. *)
  loaded : bool;
  (** [cpu_usage_report_work] is queued: its timer is armed or it waits
      for the worker. *)
  work_pending : bool;
  (** The worker of the workqueue, when it executes the work item. *)
  worker : option worker_pc;
  unloading : exit_pc;
  (** The calls made so far, oldest first. *)
  calls : list kcall
}.

(** What can happen next. *)
Inductive event : Type :=
| ev_work_start                  (* the delay elapsed, the worker picks the item *)
| ev_measure (cpus : cpu_view)   (* lines 66-79 *)
| ev_flag_check                  (* line 82 *)
| ev_requeue                     (* line 83 *)
| ev_exit_begin                  (* lines 110-111 *)
| ev_exit_cancel                 (* line 112 returns *)
| ev_exit_destroy.               (* lines 115-118 *)

(** The events that belong to an execution of [report_work_main]. *)
Definition is_tick_event (e : event) : bool :=
  match e with
  | ev_work_start | ev_measure _ | ev_flag_check | ev_requeue => true
  | _ => false
  end.

Definition is_queue_call (c : kcall) : bool :=
  match c with
  | queue_delayed_work _ _ => true
  | _ => false
  end.

Definition is_none {A : Type} (o : option A) : bool :=
  match o with
  | None => true
  | Some _ => false
  end.

Section System.

Variable abi : long_abi.
Variable sched_core : bool.
Variable HZ : Z.

(** The system [cpu_usage_init] leaves behind, started on the initial
    values of the globals. *)
Definition system_after_init (alloc : option workqueue) (cpus : cpu_view)
           (period : Z) : system :=
  let '(st, cs, ret) :=
    cpu_usage_init abi sched_core HZ alloc cpus (initial_state period) in
  mk_system st (ret =? 0) (existsb is_queue_call cs) None exit_not_called cs.

(** Modelled from the spec: the workqueue of the kernel is not part of
    the module.  A queued item is started once, by the single worker,
    and never while the item is still executing; queueing marks the
    item pending; [cancel_delayed_work_sync] returns when the item is
    not executing, and leaves it not pending ("synchronously cancels
    any pending scheduled invocation and waits for any currently
    executing tick to finish before returning"). *)
Definition step (e : event) (s : system) : option system :=
  match e with
  | ev_work_start =>
      if work_pending s && is_none (worker s)
      then Some (mk_system (globals s) (loaded s) false (Some at_measure)
                           (unloading s) (calls s))
      else None
  | ev_measure cpus =>
      match worker s with
      | Some at_measure =>
          match report_work_measure abi sched_core cpus (globals s) with
          | Some (st', line) =>
              Some (mk_system st' (loaded s) (work_pending s) (Some at_flag_check)
                              (unloading s) (calls s ++ [line]))
          | None => None
          end
      | _ => None
      end
  | ev_flag_check =>
      match worker s with
      | Some at_flag_check =>
          Some (mk_system (globals s) (loaded s) (work_pending s)
                          (if should_work_still_run (globals s)
                           then Some at_requeue else None)
                          (unloading s) (calls s))
      | _ => None
      end
  | ev_requeue =>
      match worker s with
      | Some at_requeue =>
          Some (mk_system (globals s) (loaded s) true None (unloading s)
                          (calls s ++ report_work_requeue HZ (globals s) true))
      | _ => None
      end
  | ev_exit_begin =>
      match unloading s with
      | exit_not_called =>
          if loaded s
          then Some (mk_system (set_should_run (globals s) false) (loaded s)
                               (work_pending s) (worker s) exit_at_cancel
                               (calls s ++ [pr_info msg_waiting]))
          else None
      | _ => None
      end
  | ev_exit_cancel =>
      match unloading s with
      | exit_at_cancel =>
          if is_none (worker s)
          then Some (mk_system (globals s) (loaded s) false None exit_at_destroy
                               (calls s ++ [cancel_delayed_work_sync]))
          else None
      | _ => None
      end
  | ev_exit_destroy =>
      match unloading s with
      | exit_at_destroy =>
          Some (mk_system (globals s) (loaded s) (work_pending s) (worker s)
                          exit_returned
                          (calls s ++
                             [destroy_workqueue
                                (cpu_usage_report_work_queue (globals s));
                              pr_info msg_disabled]))
      | _ => None
      end
  end.

(** A sequence of events, each taken in the state the previous left. *)
Fixpoint exec (evs : list event) (s : system) : option system :=
  match evs with
  | [] => Some s
  | e :: rest =>
      match step e s with
      | Some s' => exec rest s'
      | None => None
      end
  end.

(** [cancel_delayed_work_sync] has returned. *)
Definition cancel_returned (s : system) : bool :=
  match unloading s with
  | exit_at_destroy | exit_returned => true
  | _ => false
  end.

End System.

(** Once [cancel_delayed_work_sync] has returned the work item is
    neither pending nor executing. *)
Definition drained (s : system) : Prop :=
  cancel_returned s = true -> work_pending s = false /\ worker s = None.

(** Once [cpu_usage_exit] has been entered the flag is down. *)
Definition flag_cleared (s : system) : Prop :=
  unloading s <> exit_not_called ->
  should_work_still_run (globals s) = false.

(** The events of one run of the work item once the worker has picked
    it, when the flag is read as [flag]. *)
Definition tick_events (cpus : cpu_view) (flag : bool) : list event :=
  ev_measure cpus :: ev_flag_check :: (if flag then [ev_requeue] else []).

(** A view with no CPU online. *)
Definition no_cpus : cpu_view :=
  mk_cpu_view [] (fun _ => mk_kernel_cpustat []).

(** The events that take [cpu_usage_exit] from its entry to its return,
    letting a run of the work item that is under way finish first. *)
Definition exit_events (w : option worker_pc) : list event :=
  ev_exit_begin
    :: match w with
       | None => []
       | Some at_measure => [ev_measure no_cpus; ev_flag_check]
       | Some at_flag_check => [ev_flag_check]
       | Some at_requeue => [ev_requeue]
       end
    ++ [ev_exit_cancel; ev_exit_destroy].

(** ** What the claims compare the code with *)

(** The sums of the accounting slots in unbounded arithmetic: over the
    slots selected by [keep] of one CPU, and over a list of CPUs. *)
Definition exact_slot_sum (keep : nat -> bool) (cpu_stats : kernel_cpustat)
           (indices : list nat) : Z :=
  fold_right (fun index acc =>
                (if keep index then nth index (cpustat cpu_stats) 0 else 0) + acc)
             0 indices.

Definition exact_cpu_sum (sched_core : bool) (keep : nat -> bool)
           (cpu_stats : kernel_cpustat) : Z :=
  exact_slot_sum keep cpu_stats (seq 0 (NR_STATS sched_core)).

Definition exact_sum (sched_core : bool) (keep : nat -> bool)
           (cpus : cpu_view) : Z :=
  fold_right (fun cpu_id acc =>
                exact_cpu_sum sched_core keep (kcpustat_cpu cpus cpu_id) + acc)
             0 (online_cpus cpus).

Definition every_stat (index : nat) : bool := true.

(** Every slot the sampler reads holds a [u64]. *)
Definition stats_are_u64 (sched_core : bool) (cpus : cpu_view) : Prop :=
  forall cpu_id index,
    In cpu_id (online_cpus cpus) ->
    (index < NR_STATS sched_core)%nat ->
    is_u64 (nth index (cpustat (kcpustat_cpu cpus cpu_id)) 0).

(** The view in which every CPU that is not online reads as [blank]. *)
Definition only_online (blank : kernel_cpustat) (cpus : cpu_view) : cpu_view :=
  mk_cpu_view (online_cpus cpus)
              (fun cpu_id =>
                 if existsb (Nat.eqb cpu_id) (online_cpus cpus)
                 then kcpustat_cpu cpus cpu_id
                 else blank).

(** One CPU that spent 2^63 time units in user mode and 2^63 idle. *)
Definition half_busy_cpu : cpu_view :=
  mk_cpu_view [0%nat]
              (fun _ => mk_kernel_cpustat [2 ^ 63; 0; 0; 0; 0; 2 ^ 63; 0; 0; 0; 0]).

(** Two CPUs with small counters. *)
Definition two_cpus : cpu_view :=
  mk_cpu_view [0%nat; 1%nat]
              (fun cpu_id =>
                 if (cpu_id =? 0)%nat
                 then mk_kernel_cpustat [200; 0; 100; 0; 0; 700; 0; 0; 0; 0]
                 else mk_kernel_cpustat [50; 10; 40; 5; 5; 850; 30; 10; 0; 0]).

(** The same CPUs some time later. *)
Definition two_cpus_later : cpu_view :=
  mk_cpu_view [0%nat; 1%nat]
              (fun cpu_id =>
                 if (cpu_id =? 0)%nat
                 then mk_kernel_cpustat [300; 0; 150; 0; 0; 1050; 0; 0; 0; 0]
                 else mk_kernel_cpustat [100; 10; 60; 5; 5; 1270; 40; 10; 0; 0]).

(** The counters each run of the work item is expected to find in
    [last_total_jiffies] and [last_relevant_jiffies]: the first run finds
    [previous], every later run the counters fetched by the run before
    it. *)
Fixpoint expected_baselines (previous : Z * Z) (fetched : list (Z * Z))
  : list (Z * Z) :=
  match fetched with
  | [] => []
  | current :: rest => previous :: expected_baselines current rest
  end.

(** ** What the further properties are stated with *)

(** The slots that the [switch] of [get_cpu_stats] leaves out of
    [relevant_jiffies]. *)
Definition is_idle_stat (index : nat) : bool :=
  (index =? CPUTIME_IDLE)%nat
  || (index =? CPUTIME_IOWAIT)%nat
  || (index =? CPUTIME_GUEST)%nat
  || (index =? CPUTIME_GUEST_NICE)%nat
  || (index =? CPUTIME_FORCEIDLE)%nat.


(** Two views of the same online CPUs whose slots read the same once
    converted to [unsigned long]. *)
Definition slots_agree_as_ulong (abi : long_abi) (sched_core : bool)
           (v1 v2 : cpu_view) : Prop :=
  online_cpus v1 = online_cpus v2
  /\ forall cpu_id index,
      In cpu_id (online_cpus v1) ->
      (index < NR_STATS sched_core)%nat ->
      to_ulong abi (nth index (cpustat (kcpustat_cpu v1 cpu_id)) 0)
      = to_ulong abi (nth index (cpustat (kcpustat_cpu v2 cpu_id)) 0).

(** A view whose single CPU holds a user-mode slot above 2^32, and the
    same view with the upper half of the slot cleared. *)
Definition wide_slot_cpu : cpu_view :=
  mk_cpu_view [0%nat]
              (fun _ => mk_kernel_cpustat [2 ^ 32 + 5; 0; 0; 0; 0; 7; 0; 0; 0; 0]).

Definition narrow_slot_cpu : cpu_view :=
  mk_cpu_view [0%nat]
              (fun _ => mk_kernel_cpustat [5; 0; 0; 0; 0; 7; 0; 0; 0; 0]).

(** The load lines among the calls made. *)
Definition is_report (c : kcall) : bool :=
  match c with
  | pr_info (msg_average_load _ _) => true
  | _ => false
  end.

Definition count_reports (cs : list kcall) : nat :=
  length (filter is_report cs).

(** The runs of the work item that can still print without the work
    item being queued again: one when it is pending, one when the worker
    has not printed yet, one when the worker is about to queue it. *)
Definition runs_in_flight (s : system) : nat :=
  ((if work_pending s then 1 else 0)
   + match worker s with
     | Some at_measure | Some at_requeue => 1
     | _ => 0
     end)%nat.

(** What holds in every state of a module that was loaded with the
    workqueue [wq] and the period [period]. *)
Definition well_formed (abi : long_abi) (wq : workqueue) (period : Z)
           (s : system) : Prop :=
  cpu_usage_report_work_queue (globals s) = Some wq
  /\ cpu_usage_report_period (globals s) = period
  /\ loaded s = true
  /\ (work_pending s = true -> worker s = None)
  /\ (unloading s = exit_not_called ->
      should_work_still_run (globals s) = true)
  /\ is_ulong abi (last_total_jiffies (globals s))
  /\ is_ulong abi (last_relevant_jiffies (globals s)).

(** The arguments a call may carry in a module loaded with [wq] and
    [period]: the work item is queued on [wq] with the delay computed
    from [period], and [wq] is the workqueue destroyed. *)
Definition call_expected (HZ : Z) (wq : workqueue) (period : Z) (c : kcall) : Prop :=
  match c with
  | queue_delayed_work q delay =>
      q = Some wq /\ delay = (HZ * period) mod uint_modulus
  | destroy_workqueue q => q = Some wq
  | pr_info (msg_enabled p) => p = period
  | pr_info (msg_average_load p _) => p = period
  | _ => True
  end.

(** How the calls of a module end, depending on how far
    [cpu_usage_exit] has come. *)
Definition exit_trail (wq : workqueue) (s : system) : Prop :=
  match unloading s with
  | exit_not_called => True
  | exit_at_cancel => True
  | exit_at_destroy =>
      exists cs, calls s = cs ++ [cancel_delayed_work_sync]
  | exit_returned =>
      exists cs,
        calls s = cs ++ [cancel_delayed_work_sync;
                         destroy_workqueue (Some wq);
                         pr_info msg_disabled]
  end.

(** Every call made so far carries the expected arguments. *)
Definition calls_expected (abi : long_abi) (HZ : Z) (wq : workqueue) (period : Z)
           (s : system) : Prop :=
  well_formed abi wq period s
  /\ Forall (call_expected HZ wq period) (calls s).

(** The trail of [cpu_usage_exit] in the calls of a drained system. *)
Definition exit_tracked (abi : long_abi) (wq : workqueue) (period : Z)
           (s : system) : Prop :=
  well_formed abi wq period s /\ drained s /\ exit_trail wq s.

(** Once the flag is down, the load lines printed so far and the runs
    that can still print stay within [bound]. *)
Definition reports_bounded (bound : nat) (s : system) : Prop :=
  (work_pending s = true -> worker s = None)
  /\ should_work_still_run (globals s) = false
  /\ (count_reports (calls s) + runs_in_flight s <= bound)%nat.

(** The queueings of the work item among the calls made. *)
Definition count_queues (cs : list kcall) : nat :=
  length (filter is_queue_call cs).

(** Every load line printed, and every run that has yet to print one,
    is matched by a queueing of its own. *)
Definition reports_covered (s : system) : Prop :=
  (count_reports (calls s)
   + (if work_pending s then 1 else 0)
   + match worker s with
     | Some at_measure => 1
     | _ => 0
     end
   <= count_queues (calls s))%nat.

(** * Properties *)

(** ** Machine arithmetic *)

Section ArithmeticFacts.

Variable abi : long_abi.

Lemma ulong_modulus_large : 100 < ulong_modulus abi.
Proof. destruct abi; reflexivity. Qed.

Lemma ulong_modulus_pos : 0 < ulong_modulus abi.
Proof. pose proof ulong_modulus_large; lia. Qed.

Lemma to_ulong_range (x : Z) : is_ulong abi (to_ulong abi x).
Proof. apply Z.mod_pos_bound, ulong_modulus_pos. Qed.

Lemma to_ulong_small (x : Z) : is_ulong abi x -> to_ulong abi x = x.
Proof. intros H; apply Z.mod_small; exact H. Qed.

Lemma to_ulong_le (x : Z) : 0 <= x -> to_ulong abi x <= x.
Proof. intros H; apply Z.mod_le; [exact H | apply ulong_modulus_pos]. Qed.

Lemma add_ulong_to_ulong (x y : Z) :
  add_ulong abi (to_ulong abi x) (to_ulong abi y) = to_ulong abi (x + y).
Proof.
  unfold add_ulong, to_ulong.
  symmetry; apply Zplus_mod.
Qed.

Lemma sub_ulong_diag (x : Z) : sub_ulong abi x x = 0.
Proof. unfold sub_ulong, to_ulong; rewrite Z.sub_diag; apply Zmod_0_l. Qed.

Lemma sub_ulong_borrow (x y : Z) :
  is_ulong abi x -> is_ulong abi y -> x < y ->
  sub_ulong abi x y = x - y + ulong_modulus abi.
Proof.
  unfold is_ulong, sub_ulong, to_ulong; intros Hx Hy Hlt.
  symmetry; apply Zmod_unique with (q := -1); lia.
Qed.

Lemma sub_ulong_exact (x y : Z) :
  is_ulong abi x -> is_ulong abi y -> y <= x ->
  sub_ulong abi x y = x - y.
Proof.
  unfold is_ulong, sub_ulong, to_ulong; intros Hx Hy Hle.
  apply Z.mod_small; lia.
Qed.

End ArithmeticFacts.

(** ** The load computation *)

Section UsageFacts.

Variable abi : long_abi.

(** The guard [total_jiffies_diff > 0] keeps the division from
    faulting, whatever the operands. *)
Lemma load_percent_value (td rd : Z) :
  0 <= td ->
  load_percent abi td rd
  = Some (if td =? 0 then 0 else mul_ulong abi 100 rd / td).
Proof.
  intros Htd; unfold load_percent, div_ulong.
  destruct (0 <? td) eqn:Hpos.
  - apply Z.ltb_lt in Hpos.
    destruct (td =? 0) eqn:Hz; [apply Z.eqb_eq in Hz; lia | reflexivity].
  - apply Z.ltb_ge in Hpos.
    assert (td = 0) as -> by lia; reflexivity.
Qed.

Lemma compute_usage_value (lt lr t r : Z) :
  compute_usage abi lt lr t r
  = Some (mk_usage (sub_ulong abi t lt) (sub_ulong abi r lr)
                   (if sub_ulong abi t lt =? 0 then 0
                    else mul_ulong abi 100 (sub_ulong abi r lr)
                         / sub_ulong abi t lt)).
Proof.
  unfold compute_usage.
  rewrite load_percent_value; [reflexivity | ].
  apply (to_ulong_range abi).
Qed.

(** The quotient of the wrapped product never exceeds the machine
    range, and is at most 100 as soon as the relevant difference is
    at most the total one. *)
Lemma wrapped_quotient_range (td rd : Z) :
  0 < td -> is_ulong abi (mul_ulong abi 100 rd / td).
Proof.
  intros Htd.
  pose proof (to_ulong_range abi (100 * rd)) as [Hlo Hhi].
  fold (mul_ulong abi 100 rd) in Hlo, Hhi.
  split.
  - apply Z.div_pos; assumption.
  - apply Z.le_lt_trans with (m := mul_ulong abi 100 rd); [ | exact Hhi].
    apply Z.div_le_upper_bound; [exact Htd | nia].
Qed.

Lemma wrapped_quotient_le_100 (td rd : Z) :
  0 <= rd <= td -> 0 < td -> 0 <= mul_ulong abi 100 rd / td <= 100.
Proof.
  intros Hrd Htd.
  pose proof (to_ulong_range abi (100 * rd)) as [Hlo _].
  pose proof (to_ulong_le abi (100 * rd)) as Hle.
  fold (mul_ulong abi 100 rd) in Hlo, Hle.
  split.
  - apply Z.div_pos; assumption.
  - apply Z.div_le_upper_bound; [exact Htd | lia].
Qed.

End UsageFacts.

(** Scenario A on both ABIs, and a 32-bit measurement of one second on
    one CPU counted in nanoseconds: half of the time was busy, 2 is
    printed. *)
Example scenario_A (abi : long_abi) :
  compute_usage abi 1000 200 1500 400 = Some (mk_usage 500 200 40).
Proof. destruct abi; reflexivity. Qed.

Example ilp32_one_second :
  compute_usage ILP32 0 0 1000000000 500000000
  = Some (mk_usage 1000000000 500000000 2).
Proof. reflexivity. Qed.

(** C1, as stated, fails: with both differences equal to 2^63 on a
    64-bit kernel the exact quotient 100 * relevantDelta / totalDelta is
    100, but the product wraps to 0 and 0 is what is printed. *)
Lemma percent_not_exact_quotient :
  exists u,
    compute_usage LP64 0 0 (2 ^ 63) (2 ^ 63) = Some u
    /\ total_jiffies_diff u <> 0
    /\ 100 * relevant_jiffies_diff u / total_jiffies_diff u = 100
    /\ percent u = 0.
Proof.
  exists (mk_usage (2 ^ 63) (2 ^ 63) 0).
  vm_compute; repeat split; discriminate.
Qed.

(** C1 (amended): for every previous and current pair of counters the
    computation returns (no division fault, also when the total
    difference is 0); the total and the relevant differences are the
    subtractions modulo 2^w; the percentage is 0 when the total
    difference is 0 and otherwise the truncating quotient of the product
    100 * relevantDelta, itself reduced modulo 2^w, by the total
    difference.  Scenarios A and B are instances. *)
Theorem compute_usage_wrapping (abi : long_abi) (lt lr t r : Z) :
  (exists u,
    compute_usage abi lt lr t r = Some u
    /\ total_jiffies_diff u = (t - lt) mod 2 ^ BITS_PER_LONG abi
    /\ relevant_jiffies_diff u = (r - lr) mod 2 ^ BITS_PER_LONG abi
    /\ percent u
       = if total_jiffies_diff u =? 0 then 0
         else ((100 * relevant_jiffies_diff u) mod 2 ^ BITS_PER_LONG abi)
              / total_jiffies_diff u)
  /\ compute_usage abi 1000 200 1500 400 = Some (mk_usage 500 200 40)
  /\ compute_usage abi 1000 200 1000 200 = Some (mk_usage 0 0 0).
Proof.
  split; [ | split; destruct abi; reflexivity].
  rewrite compute_usage_value.
  eexists; split; [reflexivity | ].
  cbn [total_jiffies_diff relevant_jiffies_diff percent].
  repeat split.
Qed.

(** C2, as stated, fails: both counters advanced, yet the relevant one
    advanced by more than the total one and 20000 is printed. *)
Lemma percent_above_100 :
  1001 >= 1000 /\ 400 >= 200
  /\ exists u,
      compute_usage LP64 1000 200 1001 400 = Some u
      /\ percent u = 20000
      /\ ~ (0 <= percent u <= 100).
Proof.
  split; [lia | split; [lia | ]].
  eexists; split; [reflexivity | ].
  cbn; split; [reflexivity | lia].
Qed.

(** C2 (amended): for every pair of counters (values of an unsigned
    long) in which neither counter went back and the relevant counter
    advanced by no more than the total one, the percentage lies between
    0 and 100 inclusive. *)
Theorem percent_between_0_and_100 (abi : long_abi) (lt lr t r : Z) :
  is_ulong abi lt -> is_ulong abi lr -> is_ulong abi t -> is_ulong abi r ->
  t >= lt -> r >= lr -> r - lr <= t - lt ->
  exists u,
    compute_usage abi lt lr t r = Some u /\ 0 <= percent u <= 100.
Proof.
  intros Hlt Hlr Ht Hr Htot Hrel Hle.
  rewrite compute_usage_value.
  eexists; split; [reflexivity | ].
  cbn [percent].
  rewrite !sub_ulong_exact by (assumption || lia).
  destruct (t - lt =? 0) eqn:Hz; [lia | ].
  apply Z.eqb_neq in Hz.
  apply wrapped_quotient_le_100; lia.
Qed.

(** Scenario A meets the conditions of the bound. *)
Lemma percent_between_0_and_100_witness :
  exists u,
    compute_usage LP64 1000 200 1500 400 = Some u /\ 0 <= percent u <= 100.
Proof.
  apply (percent_between_0_and_100 LP64 1000 200 1500 400);
    unfold is_ulong, ulong_modulus; cbn; lia.
Defined.

(** C3: when the current total is below the previous one the
    computation still returns: the total difference is the subtraction
    wrapped modulo 2^w, and the differences and the percentage are
    values of an unsigned long. *)
Theorem counter_reset_does_not_fault (abi : long_abi) (lt lr t r : Z) :
  is_ulong abi lt -> is_ulong abi t -> t < lt ->
  exists u,
    compute_usage abi lt lr t r = Some u
    /\ total_jiffies_diff u = t - lt + 2 ^ BITS_PER_LONG abi
    /\ is_ulong abi (total_jiffies_diff u)
    /\ is_ulong abi (relevant_jiffies_diff u)
    /\ is_ulong abi (percent u).
Proof.
  intros Hlt Ht Hback.
  rewrite compute_usage_value.
  eexists; split; [reflexivity | ].
  cbn [total_jiffies_diff relevant_jiffies_diff percent].
  split; [apply sub_ulong_borrow; assumption | ].
  split; [apply (to_ulong_range abi) | ].
  split; [apply (to_ulong_range abi) | ].
  destruct (sub_ulong abi t lt =? 0) eqn:Hz.
  - pose proof (ulong_modulus_pos abi); unfold is_ulong; lia.
  - apply Z.eqb_neq in Hz.
    apply wrapped_quotient_range.
    pose proof (to_ulong_range abi (t - lt)) as [Hlo _].
    fold (sub_ulong abi t lt) in Hlo; lia.
Qed.

(** Scenario C on a 64-bit kernel. *)
Lemma counter_reset_does_not_fault_witness :
  exists u,
    compute_usage LP64 1000 200 999 200 = Some u
    /\ total_jiffies_diff u = 999 - 1000 + 2 ^ BITS_PER_LONG LP64
    /\ is_ulong LP64 (total_jiffies_diff u)
    /\ is_ulong LP64 (relevant_jiffies_diff u)
    /\ is_ulong LP64 (percent u).
Proof.
  apply (counter_reset_does_not_fault LP64 1000 200 999 200);
    unfold is_ulong, ulong_modulus; cbn; lia.
Defined.

(** C5: measuring against the very same counters gives two zero
    differences and 0 percent. *)
Theorem same_counters_give_zero (abi : long_abi) (t r : Z) :
  compute_usage abi t r t r = Some (mk_usage 0 0 0).
Proof.
  rewrite compute_usage_value, !sub_ulong_diag; reflexivity.
Qed.

(** C10: the product 100 * relevantDelta is reduced modulo 2^w before
    the division.  While the relevant difference is positive, at most
    the total one, and the product fits an unsigned long, the quotient
    is the exact one and at most 100.  Once the product exceeds the
    range the printed value says nothing about the real load: two
    measurements in which all of the elapsed time was busy print 0 and
    49. *)
Theorem load_percent_product_wraps :
  (forall abi td rd,
      0 < td ->
      load_percent abi td rd
      = Some (((100 * rd) mod 2 ^ BITS_PER_LONG abi) / td))
  /\ (forall abi td rd,
         0 < rd <= td -> 100 * rd <= ULONG_MAX abi ->
         load_percent abi td rd = Some (100 * rd / td)
         /\ 100 * rd / td <= 100)
  /\ (exists td rd,
         is_ulong LP64 td /\ 0 < rd <= td /\ ULONG_MAX LP64 < 100 * rd
         /\ 100 * rd / td = 100
         /\ load_percent LP64 td rd = Some 0)
  /\ (exists td rd,
         is_ulong LP64 td /\ 0 < rd <= td /\ ULONG_MAX LP64 < 100 * rd
         /\ 100 * rd / td = 100
         /\ load_percent LP64 td rd = Some 49).
Proof.
  split; [ | split; [ | split]].
  - intros abi td rd Htd.
    rewrite load_percent_value by lia.
    destruct (td =? 0) eqn:Hz; [apply Z.eqb_eq in Hz; lia | reflexivity].
  - intros abi td rd Hrd Hfit.
    rewrite load_percent_value by lia.
    destruct (td =? 0) eqn:Hz; [apply Z.eqb_eq in Hz; lia | ].
    unfold mul_ulong.
    rewrite to_ulong_small by (unfold is_ulong, ULONG_MAX in *; lia).
    split; [reflexivity | ].
    apply Z.div_le_upper_bound; lia.
  - exists (2 ^ 63), (2 ^ 63).
    vm_compute; repeat split; discriminate.
  - exists 368934881474191032, 368934881474191032.
    vm_compute; repeat split; discriminate.
Qed.

(** The differences of scenario A, where the product fits. *)
Lemma load_percent_product_wraps_witness :
  load_percent LP64 500 200 = Some (((100 * 200) mod 2 ^ BITS_PER_LONG LP64) / 500)
  /\ load_percent LP64 500 200 = Some (100 * 200 / 500)
  /\ 100 * 200 / 500 <= 100.
Proof.
  split.
  - apply (proj1 load_percent_product_wraps LP64 500 200); lia.
  - apply (proj1 (proj2 load_percent_product_wraps) LP64 500 200);
      unfold ULONG_MAX, ulong_modulus; cbn; lia.
Defined.

(** ** The sampler *)

Section SamplingFacts.

Variable abi : long_abi.
Variable sched_core : bool.

Lemma count_stat_sums (cpu_stats : kernel_cpustat) (T R : Z) (index : nat) :
  count_stat abi cpu_stats (to_ulong abi T, to_ulong abi R) index
  = (to_ulong abi (T + nth index (cpustat cpu_stats) 0),
     to_ulong abi (R + if is_relevant_stat index
                       then nth index (cpustat cpu_stats) 0 else 0)).
Proof.
  unfold count_stat; cbn [fst snd].
  rewrite add_ulong_to_ulong.
  destruct (is_relevant_stat index).
  - rewrite add_ulong_to_ulong; reflexivity.
  - rewrite Z.add_0_r; reflexivity.
Qed.

Lemma count_stats_sums (cpu_stats : kernel_cpustat) (l : list nat) :
  forall T R,
    fold_left (count_stat abi cpu_stats) l (to_ulong abi T, to_ulong abi R)
    = (to_ulong abi (T + exact_slot_sum every_stat cpu_stats l),
       to_ulong abi (R + exact_slot_sum is_relevant_stat cpu_stats l)).
Proof.
  induction l as [ | index l IH]; intros T R; cbn [fold_left exact_slot_sum fold_right].
  - rewrite !Z.add_0_r; reflexivity.
  - rewrite count_stat_sums, IH.
    unfold every_stat at 2; rewrite !Z.add_assoc; reflexivity.
Qed.

Lemma count_cpu_sums (kcpustat : nat -> kernel_cpustat) (T R : Z) (cpu_id : nat) :
  count_cpu abi sched_core kcpustat (to_ulong abi T, to_ulong abi R) cpu_id
  = (to_ulong abi (T + exact_cpu_sum sched_core every_stat (kcpustat cpu_id)),
     to_ulong abi (R + exact_cpu_sum sched_core is_relevant_stat (kcpustat cpu_id))).
Proof. unfold count_cpu; apply count_stats_sums. Qed.

Lemma count_cpus_sums (kcpustat : nat -> kernel_cpustat) (l : list nat) :
  forall T R,
    fold_left (count_cpu abi sched_core kcpustat) l (to_ulong abi T, to_ulong abi R)
    = (to_ulong abi (T + exact_sum sched_core every_stat (mk_cpu_view l kcpustat)),
       to_ulong abi (R + exact_sum sched_core is_relevant_stat (mk_cpu_view l kcpustat))).
Proof.
  unfold exact_sum; cbn [online_cpus kcpustat_cpu].
  induction l as [ | cpu_id l IH]; intros T R; cbn [fold_left fold_right].
  - rewrite !Z.add_0_r; reflexivity.
  - rewrite count_cpu_sums, IH, !Z.add_assoc; reflexivity.
Qed.

(** The sampler returns the two exact sums over the online CPUs,
    reduced to an unsigned long. *)
Lemma get_cpu_stats_sums (cpus : cpu_view) :
  get_cpu_stats abi sched_core cpus
  = (to_ulong abi (exact_sum sched_core every_stat cpus),
     to_ulong abi (exact_sum sched_core is_relevant_stat cpus)).
Proof.
  destruct cpus as [l k]; unfold get_cpu_stats; cbn [online_cpus kcpustat_cpu].
  change (0, 0) with (to_ulong abi 0, to_ulong abi 0).
  rewrite count_cpus_sums; reflexivity.
Qed.

Lemma get_cpu_stats_range (cpus : cpu_view) :
  is_ulong abi (fst (get_cpu_stats abi sched_core cpus))
  /\ is_ulong abi (snd (get_cpu_stats abi sched_core cpus)).
Proof.
  rewrite get_cpu_stats_sums; cbn [fst snd]; split; apply to_ulong_range.
Qed.

(** With no negative slot, the relevant slots sum to at most the sum
    of all slots. *)
Lemma slots_relevant_le (cpu_stats : kernel_cpustat) (l : list nat) :
  (forall index, In index l -> 0 <= nth index (cpustat cpu_stats) 0) ->
  0 <= exact_slot_sum is_relevant_stat cpu_stats l <= exact_slot_sum every_stat cpu_stats l.
Proof.
  induction l as [ | index l IH]; intros Hpos; cbn [exact_slot_sum fold_right].
  - lia.
  - specialize (IH (fun i Hi => Hpos i (or_intror Hi))).
    specialize (Hpos index (or_introl eq_refl)).
    unfold every_stat at 1.
    destruct (is_relevant_stat index); fold (exact_slot_sum is_relevant_stat cpu_stats l);
      fold (exact_slot_sum every_stat cpu_stats l); lia.
Qed.

Lemma exact_sum_relevant_le (cpus : cpu_view) :
  stats_are_u64 sched_core cpus ->
  0 <= exact_sum sched_core is_relevant_stat cpus
    <= exact_sum sched_core every_stat cpus.
Proof.
  destruct cpus as [l k]; unfold stats_are_u64, exact_sum;
    cbn [online_cpus kcpustat_cpu].
  induction l as [ | cpu_id l IH]; intros Hu64; cbn [fold_right].
  - lia.
  - specialize (IH (fun c i Hc Hi => Hu64 c i (or_intror Hc) Hi)).
    assert (0 <= exact_cpu_sum sched_core is_relevant_stat (k cpu_id)
            <= exact_cpu_sum sched_core every_stat (k cpu_id)) as Hcpu.
    { apply slots_relevant_le.
      intros index Hin; apply in_seq in Hin.
      apply (Hu64 cpu_id index (or_introl eq_refl)); lia. }
    lia.
Qed.

Lemma fold_left_agree {A B : Type} (f g : A -> B -> A) (l : list B) :
  (forall x, In x l -> forall a, f a x = g a x) ->
  forall a, fold_left f l a = fold_left g l a.
Proof.
  induction l as [ | x l IH]; intros Hfg a; cbn [fold_left].
  - reflexivity.
  - rewrite (Hfg x (or_introl eq_refl)).
    apply IH; intros y Hy; apply Hfg; right; exact Hy.
Qed.

Lemma get_cpu_stats_only_online (blank : kernel_cpustat) (cpus : cpu_view) :
  get_cpu_stats abi sched_core (only_online blank cpus)
  = get_cpu_stats abi sched_core cpus.
Proof.
  unfold get_cpu_stats, only_online; cbn [online_cpus kcpustat_cpu].
  apply fold_left_agree; intros cpu_id Hin acc.
  unfold count_cpu.
  replace (existsb (Nat.eqb cpu_id) (online_cpus cpus)) with true; [reflexivity | ].
  symmetry; apply existsb_exists.
  exists cpu_id; split; [exact Hin | apply Nat.eqb_refl].
Qed.

End SamplingFacts.

(** C4, as stated, fails: the two slots of [half_busy_cpu] are valid
    [u64] values, their sum wraps to 0 in the total while the relevant
    sum is 2^63. *)
Lemma relevant_exceeds_wrapped_total :
  stats_are_u64 false half_busy_cpu
  /\ get_cpu_stats LP64 false half_busy_cpu = (0, 2 ^ 63)
  /\ ~ (snd (get_cpu_stats LP64 false half_busy_cpu)
        <= fst (get_cpu_stats LP64 false half_busy_cpu)).
Proof.
  split; [ | split].
  - intros cpu_id index _ Hindex; unfold is_u64, u64_modulus.
    cbn [half_busy_cpu kcpustat_cpu cpustat].
    do 10 (destruct index as [ | index]; [cbn; lia | ]).
    cbn in Hindex; lia.
  - vm_compute; reflexivity.
  - vm_compute; intros Hle; apply Hle; reflexivity.
Qed.

(** C4 (amended): when every slot holds a [u64] and the sum of all
    slots of all online CPUs does not exceed [ULONG_MAX], the sampler
    returns exactly the two sums, and the relevant one is at most the
    total one. *)
Theorem relevant_le_total (abi : long_abi) (sched_core : bool) (cpus : cpu_view) :
  stats_are_u64 sched_core cpus ->
  exact_sum sched_core every_stat cpus <= ULONG_MAX abi ->
  get_cpu_stats abi sched_core cpus
  = (exact_sum sched_core every_stat cpus,
     exact_sum sched_core is_relevant_stat cpus)
  /\ snd (get_cpu_stats abi sched_core cpus)
     <= fst (get_cpu_stats abi sched_core cpus).
Proof.
  intros Hu64 Hfit.
  pose proof (exact_sum_relevant_le sched_core cpus Hu64) as Hle.
  rewrite get_cpu_stats_sums.
  rewrite !to_ulong_small by (unfold is_ulong, ULONG_MAX in *; lia).
  split; [reflexivity | cbn [fst snd]; lia].
Qed.

(** C9: with no CPU online the sampler returns (0, 0); in general it
    returns the sums, modulo 2^w, over the CPUs that are online when it
    runs, and what [kcpustat_cpu] holds for any other CPU has no
    influence. *)
Theorem sampler_reads_online_cpus_only (abi : long_abi) (sched_core : bool) :
  (forall kcpustat, get_cpu_stats abi sched_core (mk_cpu_view [] kcpustat) = (0, 0))
  /\ (forall cpus,
         get_cpu_stats abi sched_core cpus
         = (to_ulong abi (exact_sum sched_core every_stat cpus),
            to_ulong abi (exact_sum sched_core is_relevant_stat cpus)))
  /\ (forall blank cpus,
         get_cpu_stats abi sched_core (only_online blank cpus)
         = get_cpu_stats abi sched_core cpus).
Proof.
  split; [reflexivity | split].
  - apply get_cpu_stats_sums.
  - intros blank cpus; apply get_cpu_stats_only_online.
Qed.

(** [two_cpus] is far from overflowing the total. *)
Lemma relevant_le_total_witness :
  get_cpu_stats LP64 false two_cpus
  = (exact_sum false every_stat two_cpus,
     exact_sum false is_relevant_stat two_cpus)
  /\ snd (get_cpu_stats LP64 false two_cpus)
     <= fst (get_cpu_stats LP64 false two_cpus).
Proof.
  apply (relevant_le_total LP64 false two_cpus).
  - intros cpu_id index Hin Hindex; unfold is_u64, u64_modulus.
    destruct Hin as [<- | [<- | []]]; cbn [two_cpus kcpustat_cpu cpustat Nat.eqb];
      do 10 (destruct index as [ | index]; [cbn; lia | ]);
      cbn in Hindex; lia.
  - unfold ULONG_MAX, ulong_modulus; cbn; lia.
Defined.

(** ** The work item *)

Section ModuleFacts.

Variable abi : long_abi.
Variable sched_core : bool.
Variable HZ : Z.

(** The measuring part of the work item never faults; it stores the
    counters it fetched and touches no other global. *)
Lemma report_work_measure_value (cpus : cpu_view) (st : module_state) :
  report_work_measure abi sched_core cpus st
  = let total_jiffies := fst (get_cpu_stats abi sched_core cpus) in
    let relevant_jiffies := snd (get_cpu_stats abi sched_core cpus) in
    let total_diff := sub_ulong abi total_jiffies (last_total_jiffies st) in
    let relevant_diff := sub_ulong abi relevant_jiffies (last_relevant_jiffies st) in
    Some (set_last_jiffies st total_jiffies relevant_jiffies,
          pr_info (msg_average_load
                     (cpu_usage_report_period st)
                     (if total_diff =? 0 then 0
                      else mul_ulong abi 100 relevant_diff / total_diff))).
Proof.
  unfold report_work_measure.
  destruct (get_cpu_stats abi sched_core cpus) as [t r]; cbn [fst snd].
  rewrite compute_usage_value; reflexivity.
Qed.

Lemma report_work_main_value (cpus : cpu_view) (st : module_state) :
  exists line,
    report_work_measure abi sched_core cpus st
    = Some (set_last_jiffies st (fst (get_cpu_stats abi sched_core cpus))
                             (snd (get_cpu_stats abi sched_core cpus)), line)
    /\ report_work_main abi sched_core HZ cpus st
       = Some (set_last_jiffies st (fst (get_cpu_stats abi sched_core cpus))
                                (snd (get_cpu_stats abi sched_core cpus)),
               line :: report_work_requeue HZ st (should_work_still_run st)).
Proof.
  unfold report_work_main.
  rewrite report_work_measure_value; cbv zeta.
  eexists; split; reflexivity.
Qed.

Lemma run_ticks_baselines (samples : list cpu_view) :
  forall st,
  exists st' runs,
    run_ticks abi sched_core HZ samples st = Some (st', runs)
    /\ map fst runs
       = expected_baselines (last_total_jiffies st, last_relevant_jiffies st)
                            (map (get_cpu_stats abi sched_core) samples)
    /\ cpu_usage_report_period st' = cpu_usage_report_period st
    /\ should_work_still_run st' = should_work_still_run st
    /\ cpu_usage_report_work_queue st' = cpu_usage_report_work_queue st.
Proof.
  induction samples as [ | cpus rest IH]; intros st.
  - exists st, []; repeat split.
  - destruct (report_work_main_value cpus st) as (line & _ & Hmain).
    cbn [run_ticks]; rewrite Hmain.
    destruct (IH (set_last_jiffies st (fst (get_cpu_stats abi sched_core cpus))
                                   (snd (get_cpu_stats abi sched_core cpus))))
      as (st' & runs & Hrun & Hbase & Hperiod & Hflag & Hwq).
    rewrite Hrun.
    eexists; eexists; split; [reflexivity | ].
    cbn [map fst expected_baselines].
    rewrite Hbase; cbn [set_last_jiffies last_total_jiffies last_relevant_jiffies].
    rewrite <- surjective_pairing.
    repeat split; assumption.
Qed.

End ModuleFacts.

(** C7: a run of the work item prints the load computed against the
    counters stored by the run before it, then stores exactly the
    counters it fetched; the period, the running flag and the workqueue
    pointer keep their values.  Hence in a sequence of runs every run
    after the first finds the counters fetched by the run just before
    it. *)
Theorem tick_replaces_baseline (abi : long_abi) (sched_core : bool) (HZ : Z) :
  (forall cpus st,
      exists st' u,
        compute_usage abi (last_total_jiffies st) (last_relevant_jiffies st)
                      (fst (get_cpu_stats abi sched_core cpus))
                      (snd (get_cpu_stats abi sched_core cpus)) = Some u
        /\ report_work_main abi sched_core HZ cpus st
           = Some (st',
                   pr_info (msg_average_load (cpu_usage_report_period st) (percent u))
                   :: report_work_requeue HZ st (should_work_still_run st))
        /\ (last_total_jiffies st', last_relevant_jiffies st')
           = get_cpu_stats abi sched_core cpus
        /\ cpu_usage_report_period st' = cpu_usage_report_period st
        /\ should_work_still_run st' = should_work_still_run st
        /\ cpu_usage_report_work_queue st' = cpu_usage_report_work_queue st)
  /\ (forall samples st,
         exists st' runs,
           run_ticks abi sched_core HZ samples st = Some (st', runs)
           /\ map fst runs
              = expected_baselines
                  (last_total_jiffies st, last_relevant_jiffies st)
                  (map (get_cpu_stats abi sched_core) samples)
           /\ cpu_usage_report_period st' = cpu_usage_report_period st
           /\ should_work_still_run st' = should_work_still_run st
           /\ cpu_usage_report_work_queue st' = cpu_usage_report_work_queue st).
Proof.
  split.
  - intros cpus st.
    unfold report_work_main; rewrite report_work_measure_value; cbv zeta.
    rewrite compute_usage_value.
    eexists; eexists; split; [reflexivity | ].
    cbn [percent set_last_jiffies last_total_jiffies last_relevant_jiffies
         cpu_usage_report_period should_work_still_run
         cpu_usage_report_work_queue].
    split; [reflexivity | ].
    split; [symmetry; apply surjective_pairing | repeat split].
  - intros samples st; apply run_ticks_baselines.
Qed.

(** Two runs on [two_cpus] and [two_cpus_later] from the initial
    globals: the second run is measured against the counters of the
    first (22 percent), not against the initial zeros (which would give
    21 again). *)
Example two_ticks :
  option_map snd
    (run_ticks LP64 false 250 [two_cpus; two_cpus_later]
               (initial_state default_period))
  = Some [(0, 0,
           [pr_info (msg_average_load 10 21); queue_delayed_work None 2500]);
          (2000, 420,
           [pr_info (msg_average_load 10 22); queue_delayed_work None 2500])].
Proof. reflexivity. Qed.

(** C8: when [alloc_workqueue] returns NULL, [cpu_usage_init] prints
    the error line and returns [-EAGAIN]; it neither fetches the counters
    nor queues the work item, and a module started on its initial globals
    is left with them.  Nothing can happen afterwards: the work item is
    not pending and the module is not loaded. *)
Theorem init_without_workqueue (abi : long_abi) (sched_core : bool) (HZ : Z)
        (cpus : cpu_view) :
  (forall st,
      cpu_usage_init abi sched_core HZ None cpus st
      = (set_work_queue st None,
         [pr_info (msg_enabled (cpu_usage_report_period st));
          pr_err msg_no_workqueue],
         - EAGAIN))
  /\ - EAGAIN < 0
  /\ (forall period,
         set_work_queue (initial_state period) None = initial_state period)
  /\ (forall period,
         let s := system_after_init abi sched_core HZ None cpus period in
         globals s = initial_state period
         /\ work_pending s = false
         /\ worker s = None
         /\ forall e, step abi sched_core HZ e s = None).
Proof.
  split; [reflexivity | split; [reflexivity | split; [reflexivity | ]]].
  intros period; cbn.
  repeat split.
  intros e; destruct e; reflexivity.
Qed.

(** ** The work item against the unloading thread *)

Section SystemFacts.

Variable abi : long_abi.
Variable sched_core : bool.
Variable HZ : Z.

Lemma drained_after_init (alloc : option workqueue) (cpus : cpu_view) (period : Z) :
  drained (system_after_init abi sched_core HZ alloc cpus period).
Proof.
  unfold drained, system_after_init, cpu_usage_init.
  destruct alloc as [wq | ].
  - destruct (get_cpu_stats abi sched_core cpus); cbn; discriminate.
  - cbn; discriminate.
Qed.

Lemma drained_step (e : event) (s s' : system) :
  step abi sched_core HZ e s = Some s' -> drained s -> drained s'.
Proof.
  unfold drained, cancel_returned.
  destruct e; cbn [step]; intros Hstep Hinv.
  - destruct (work_pending s) eqn:Hp; [ | discriminate].
    destruct (worker s); cbn in Hstep; [discriminate | ].
    injection Hstep as <-; cbn.
    intros Hc; destruct (Hinv Hc); discriminate.
  - destruct (worker s) as [[ | | ] | ] eqn:Hw; try discriminate.
    destruct (report_work_measure abi sched_core cpus (globals s))
      as [[st' line] | ]; [ | discriminate].
    injection Hstep as <-; cbn.
    intros Hc; destruct (Hinv Hc); discriminate.
  - destruct (worker s) as [[ | | ] | ] eqn:Hw; try discriminate.
    injection Hstep as <-; cbn.
    intros Hc; destruct (Hinv Hc); discriminate.
  - destruct (worker s) as [[ | | ] | ] eqn:Hw; try discriminate.
    injection Hstep as <-; cbn.
    intros Hc; destruct (Hinv Hc); discriminate.
  - destruct (unloading s); try discriminate.
    destruct (loaded s); [ | discriminate].
    injection Hstep as <-; cbn; discriminate.
  - destruct (unloading s); try discriminate.
    destruct (worker s); cbn in Hstep; [discriminate | ].
    injection Hstep as <-; cbn; intros _; split; reflexivity.
  - destruct (unloading s) eqn:Hu; try discriminate.
    injection Hstep as <-; cbn; intros _; apply Hinv; reflexivity.
Qed.

Lemma drained_exec (evs : list event) :
  forall s s', exec abi sched_core HZ evs s = Some s' -> drained s -> drained s'.
Proof.
  induction evs as [ | e evs IH]; intros s s' Hexec Hinv; cbn [exec] in Hexec.
  - injection Hexec as <-; exact Hinv.
  - destruct (step abi sched_core HZ e s) as [s1 | ] eqn:Hstep; [ | discriminate].
    apply (IH s1 s' Hexec), (drained_step e s s1 Hstep Hinv).
Qed.

(** In a drained system where the cancellation has returned only the
    unloading thread can move, and the system stays so. *)
Lemma quiet_step (e : event) (s s' : system) :
  cancel_returned s = true -> work_pending s = false -> worker s = None ->
  step abi sched_core HZ e s = Some s' ->
  is_tick_event e = false
  /\ cancel_returned s' = true /\ work_pending s' = false /\ worker s' = None.
Proof.
  unfold cancel_returned; intros Hc Hp Hw.
  destruct e; cbn [step is_tick_event]; rewrite ?Hp, ?Hw; cbn;
    try discriminate.
  - destruct (unloading s); try discriminate.
  - destruct (unloading s); discriminate.
  - destruct (unloading s); try discriminate.
    intros Hstep; injection Hstep as <-; cbn.
    repeat split; assumption.
Qed.

Lemma quiet_exec (evs : list event) :
  forall s s',
    cancel_returned s = true -> work_pending s = false -> worker s = None ->
    exec abi sched_core HZ evs s = Some s' ->
    forallb (fun e => negb (is_tick_event e)) evs = true
    /\ work_pending s' = false /\ worker s' = None.
Proof.
  induction evs as [ | e evs IH]; intros s s' Hc Hp Hw Hexec; cbn [exec] in Hexec.
  - injection Hexec as <-; repeat split; assumption.
  - destruct (step abi sched_core HZ e s) as [s1 | ] eqn:Hstep; [ | discriminate].
    destruct (quiet_step e s s1 Hc Hp Hw Hstep) as (He & Hc1 & Hp1 & Hw1).
    destruct (IH s1 s' Hc1 Hp1 Hw1 Hexec) as (Hevs & Hp' & Hw').
    cbn [forallb]; rewrite He, Hevs; repeat split; assumption.
Qed.

End SystemFacts.

Section StopFacts.

Variable abi : long_abi.
Variable sched_core : bool.
Variable HZ : Z.

Lemma flag_cleared_step (e : event) (s s' : system) :
  step abi sched_core HZ e s = Some s' -> flag_cleared s -> flag_cleared s'.
Proof.
  unfold flag_cleared.
  destruct e; cbn [step]; intros Hstep Hinv.
  - destruct (work_pending s && is_none (worker s)); [ | discriminate].
    injection Hstep as <-; exact Hinv.
  - destruct (worker s) as [[ | | ] | ]; try discriminate.
    rewrite report_work_measure_value in Hstep; cbv zeta in Hstep.
    injection Hstep as <-; exact Hinv.
  - destruct (worker s) as [[ | | ] | ]; try discriminate.
    injection Hstep as <-; exact Hinv.
  - destruct (worker s) as [[ | | ] | ]; try discriminate.
    injection Hstep as <-; exact Hinv.
  - destruct (unloading s); try discriminate.
    destruct (loaded s); [ | discriminate].
    injection Hstep as <-; reflexivity.
  - destruct (unloading s) eqn:Hu; try discriminate.
    destruct (is_none (worker s)); [ | discriminate].
    injection Hstep as <-; cbn; intros _; apply Hinv; discriminate.
  - destruct (unloading s) eqn:Hu; try discriminate.
    injection Hstep as <-; cbn; intros _; apply Hinv; discriminate.
Qed.

Lemma flag_cleared_exec (evs : list event) :
  forall s s',
    exec abi sched_core HZ evs s = Some s' -> flag_cleared s -> flag_cleared s'.
Proof.
  induction evs as [ | e evs IH]; intros s s' Hexec Hinv; cbn [exec] in Hexec.
  - injection Hexec as <-; exact Hinv.
  - destruct (step abi sched_core HZ e s) as [s1 | ] eqn:Hstep; [ | discriminate].
    apply (IH s1 s' Hexec), (flag_cleared_step e s s1 Hstep Hinv).
Qed.

Lemma flag_cleared_after_init (alloc : option workqueue) (cpus : cpu_view)
      (period : Z) :
  flag_cleared (system_after_init abi sched_core HZ alloc cpus period).
Proof.
  unfold flag_cleared, system_after_init, cpu_usage_init.
  destruct alloc as [wq | ].
  - destruct (get_cpu_stats abi sched_core cpus); cbn; congruence.
  - cbn; congruence.
Qed.

(** Only line 83 makes the work item pending. *)
Lemma only_requeue_arms (e : event) (s s' : system) :
  step abi sched_core HZ e s = Some s' ->
  work_pending s = false -> work_pending s' = true ->
  e = ev_requeue /\ worker s = Some at_requeue.
Proof.
  destruct e; cbn [step]; intros Hstep Hp Hp'.
  - rewrite Hp in Hstep; discriminate.
  - destruct (worker s) as [[ | | ] | ]; try discriminate.
    destruct (report_work_measure abi sched_core cpus (globals s))
      as [[st' line] | ]; [ | discriminate].
    injection Hstep as <-; cbn in Hp'; congruence.
  - destruct (worker s) as [[ | | ] | ]; try discriminate.
    injection Hstep as <-; cbn in Hp'; congruence.
  - destruct (worker s) as [[ | | ] | ]; try discriminate.
    split; reflexivity.
  - destruct (unloading s); try discriminate.
    destruct (loaded s); [ | discriminate].
    injection Hstep as <-; cbn in Hp'; congruence.
  - destruct (unloading s); try discriminate.
    destruct (is_none (worker s)); [ | discriminate].
    injection Hstep as <-; cbn in Hp'; discriminate.
  - destruct (unloading s); try discriminate.
    injection Hstep as <-; cbn in Hp'; congruence.
Qed.

(** The three events of a run that nothing interrupts add up to
    [report_work_main]. *)
Lemma tick_events_are_report_work_main (cpus : cpu_view) (s : system) :
  worker s = Some at_measure ->
  exists st' cs s',
    report_work_main abi sched_core HZ cpus (globals s) = Some (st', cs)
    /\ exec abi sched_core HZ
            (tick_events cpus (should_work_still_run (globals s))) s
       = Some s'
    /\ globals s' = st'
    /\ calls s' = calls s ++ cs
    /\ worker s' = None
    /\ work_pending s'
       = (should_work_still_run (globals s) || work_pending s)%bool.
Proof.
  intros Hw.
  destruct (report_work_main_value abi sched_core HZ cpus (globals s))
    as (line & Hmeasure & Hmain).
  rewrite Hmain.
  unfold tick_events; cbn [exec step]; rewrite Hw, Hmeasure.
  cbn [worker globals set_last_jiffies should_work_still_run].
  destruct (should_work_still_run (globals s)) eqn:Hflag;
    cbn [exec step worker globals calls work_pending loaded unloading
         report_work_requeue];
    eexists; eexists; eexists; (split; [reflexivity | ]);
    (split; [reflexivity | ]);
    cbn [globals calls worker work_pending orb];
    rewrite <- ?app_assoc; repeat split.
Qed.

(** The three events of an unloading that finds the worker idle add up
    to [cpu_usage_exit]. *)
Lemma exit_events_are_cpu_usage_exit (s : system) :
  loaded s = true -> unloading s = exit_not_called -> worker s = None ->
  exists s',
    exec abi sched_core HZ (exit_events None) s = Some s'
    /\ globals s' = fst (cpu_usage_exit (globals s))
    /\ calls s' = calls s ++ snd (cpu_usage_exit (globals s)).
Proof.
  intros Hl Hu Hw.
  unfold exit_events; cbn [app exec step]; rewrite Hu, Hl.
  cbn [unloading worker]; rewrite Hw.
  cbn [is_none unloading globals calls cpu_usage_exit fst snd].
  eexists; split; [reflexivity | ].
  cbn [globals calls]; rewrite <- !app_assoc; split; reflexivity.
Qed.

(** [cpu_usage_exit] can always run to its end: a run of the work item
    that is under way needs at most two more events to finish, and then
    the cancellation returns. *)
Lemma exit_can_complete (s : system) :
  loaded s = true -> unloading s = exit_not_called ->
  exists s',
    exec abi sched_core HZ (exit_events (worker s)) s = Some s'
    /\ unloading s' = exit_returned
    /\ work_pending s' = false /\ worker s' = None.
Proof.
  destruct s as [g l p w u c]; cbn [loaded unloading worker].
  intros -> ->.
  destruct w as [[ | | ] | ]; cbn [exit_events app exec step unloading loaded
                                    worker globals work_pending calls].
  - rewrite report_work_measure_value; cbv zeta.
    cbn; eexists; repeat split.
  - cbn; eexists; repeat split.
  - cbn; eexists; repeat split.
  - cbn; eexists; repeat split.
Qed.

End StopFacts.

(** C6: a run of the work item queues itself again exactly when it
    reads the running flag as true at line 82 (run alone, and equally as
    a step of the worker while [cpu_usage_exit] runs beside it), and
    nothing else makes the work item pending.  In every execution of a
    loaded module, once [cancel_delayed_work_sync] has returned the flag
    is false, and whatever happens afterwards contains no event of the
    work item, which stays neither pending nor executing. *)
Theorem requeue_iff_running_and_stop_is_final
        (abi : long_abi) (sched_core : bool) (HZ : Z) :
  (forall cpus st,
      exists st' cs,
        report_work_main abi sched_core HZ cpus st = Some (st', cs)
        /\ existsb is_queue_call cs = should_work_still_run st)
  /\ (forall s,
         worker s = Some at_flag_check ->
         exists s',
           step abi sched_core HZ ev_flag_check s = Some s'
           /\ work_pending s' = work_pending s
           /\ worker s'
              = if should_work_still_run (globals s)
                then Some at_requeue else None)
  /\ (forall e s s',
         step abi sched_core HZ e s = Some s' ->
         work_pending s = false -> work_pending s' = true ->
         e = ev_requeue /\ worker s = Some at_requeue)
  /\ (forall wq cpus period evs s,
         exec abi sched_core HZ evs
              (system_after_init abi sched_core HZ (Some wq) cpus period)
         = Some s ->
         cancel_returned s = true ->
         should_work_still_run (globals s) = false
         /\ forall evs' s',
             exec abi sched_core HZ evs' s = Some s' ->
             forallb (fun e => negb (is_tick_event e)) evs' = true
             /\ work_pending s' = false /\ worker s' = None).
Proof.
  split; [ | split; [ | split]].
  - intros cpus st.
    destruct (report_work_main_value abi sched_core HZ cpus st)
      as (line & Hmeasure & Hmain).
    rewrite Hmain; eexists; eexists; split; [reflexivity | ].
    rewrite report_work_measure_value in Hmeasure; cbv zeta in Hmeasure.
    injection Hmeasure as <-.
    destruct (should_work_still_run st); reflexivity.
  - intros s Hw; cbn [step]; rewrite Hw.
    eexists; repeat split.
  - apply only_requeue_arms.
  - intros wq cpus period evs s Hexec Hdone.
    pose proof (drained_exec abi sched_core HZ evs _ _ Hexec
                  (drained_after_init abi sched_core HZ _ _ _)) as Hdrained.
    pose proof (flag_cleared_exec abi sched_core HZ evs _ _ Hexec
                  (flag_cleared_after_init abi sched_core HZ _ _ _)) as Hflag.
    destruct (Hdrained Hdone) as [Hp Hw].
    split.
    + apply Hflag; unfold cancel_returned in Hdone.
      destruct (unloading s); discriminate.
    + intros evs' s' Hexec'.
      apply (quiet_exec abi sched_core HZ evs' s s' Hdone Hp Hw Hexec').
Qed.

(** An unloading that catches the work item in the middle of a run: the
    run reads the flag as false and does not queue itself again. *)
Lemma requeue_iff_running_and_stop_is_final_witness :
  exists s,
    exec LP64 false 250
         [ev_work_start; ev_measure two_cpus_later; ev_exit_begin;
          ev_flag_check; ev_exit_cancel]
         (system_after_init LP64 false 250 (Some 1%nat) two_cpus 10)
    = Some s
    /\ should_work_still_run (globals s) = false
    /\ work_pending s = false /\ worker s = None.
Proof.
  assert (exists s,
             exec LP64 false 250
                  [ev_work_start; ev_measure two_cpus_later; ev_exit_begin;
                   ev_flag_check; ev_exit_cancel]
                  (system_after_init LP64 false 250 (Some 1%nat) two_cpus 10)
             = Some s
             /\ cancel_returned s = true) as (s & Hrun & Hdone).
  { eexists; split; vm_compute; reflexivity. }
  exists s; split; [exact Hrun | ].
  destruct (proj2 (proj2 (proj2
    (requeue_iff_running_and_stop_is_final LP64 false 250)))
    1%nat two_cpus 10 _ s Hrun Hdone) as [Hflag Hafter].
  split; [exact Hflag | ].
  destruct (Hafter [] s eq_refl) as (_ & Hp & Hw).
  split; assumption.
Defined.

(** * Further properties *)

(** ** The sampler: order, hot-plug, the idle remainder, narrow longs *)

Section SamplingComposition.

Variable abi : long_abi.
Variable sched_core : bool.

Lemma exact_sum_cons (keep : nat -> bool) (kcpustat : nat -> kernel_cpustat)
      (cpu_id : nat) (l : list nat) :
  exact_sum sched_core keep (mk_cpu_view (cpu_id :: l) kcpustat)
  = exact_cpu_sum sched_core keep (kcpustat cpu_id)
    + exact_sum sched_core keep (mk_cpu_view l kcpustat).
Proof. reflexivity. Qed.

Lemma exact_sum_app (keep : nat -> bool) (kcpustat : nat -> kernel_cpustat)
      (l1 l2 : list nat) :
  exact_sum sched_core keep (mk_cpu_view (l1 ++ l2) kcpustat)
  = exact_sum sched_core keep (mk_cpu_view l1 kcpustat)
    + exact_sum sched_core keep (mk_cpu_view l2 kcpustat).
Proof.
  induction l1 as [ | cpu_id l1 IH]; cbn [app].
  - reflexivity.
  - rewrite !exact_sum_cons, IH; lia.
Qed.

Lemma exact_sum_permutation (keep : nat -> bool) (kcpustat : nat -> kernel_cpustat)
      (l1 l2 : list nat) :
  Permutation l1 l2 ->
  exact_sum sched_core keep (mk_cpu_view l1 kcpustat)
  = exact_sum sched_core keep (mk_cpu_view l2 kcpustat).
Proof.
  induction 1 as [ | x l l' _ IH | x y l | l l' l'' _ IH1 _ IH2].
  - reflexivity.
  - rewrite !exact_sum_cons, IH; reflexivity.
  - rewrite !exact_sum_cons; lia.
  - rewrite IH1; exact IH2.
Qed.

(** Below [NR_STATS] every index is either one of the six relevant
    labels or one of the five idle ones. *)
Lemma idle_or_relevant (index : nat) :
  (index < NR_STATS sched_core)%nat ->
  is_idle_stat index = negb (is_relevant_stat index).
Proof.
  intros Hlt.
  assert (index < 11)%nat as Hbound by (destruct sched_core; cbn in Hlt; lia).
  do 11 (destruct index as [ | index]; [reflexivity | ]); lia.
Qed.

Lemma exact_slot_sum_split (cpu_stats : kernel_cpustat) (l : list nat) :
  (forall index, In index l -> (index < NR_STATS sched_core)%nat) ->
  exact_slot_sum every_stat cpu_stats l
  = exact_slot_sum is_relevant_stat cpu_stats l
    + exact_slot_sum is_idle_stat cpu_stats l.
Proof.
  induction l as [ | index l IH]; intros Hl; cbn [exact_slot_sum fold_right].
  - reflexivity.
  - fold (exact_slot_sum every_stat cpu_stats l).
    fold (exact_slot_sum is_relevant_stat cpu_stats l).
    fold (exact_slot_sum is_idle_stat cpu_stats l).
    rewrite (IH (fun i Hi => Hl i (or_intror Hi))).
    rewrite (idle_or_relevant index (Hl index (or_introl eq_refl))).
    unfold every_stat; destruct (is_relevant_stat index); cbn [negb]; lia.
Qed.

Lemma exact_sum_split (cpus : cpu_view) :
  exact_sum sched_core every_stat cpus
  = exact_sum sched_core is_relevant_stat cpus
    + exact_sum sched_core is_idle_stat cpus.
Proof.
  destruct cpus as [l k]; induction l as [ | cpu_id l IH].
  - reflexivity.
  - rewrite !exact_sum_cons, IH.
    unfold exact_cpu_sum; rewrite exact_slot_sum_split; [lia | ].
    intros index Hin; apply in_seq in Hin; lia.
Qed.

Lemma sub_ulong_to_ulong (x y : Z) :
  sub_ulong abi (to_ulong abi x) (to_ulong abi y) = to_ulong abi (x - y).
Proof.
  unfold sub_ulong, to_ulong.
  symmetry; apply Zminus_mod.
Qed.

(** The slots of one CPU enter the sums only through their value as an
    [unsigned long]. *)
Lemma exact_slot_sum_congruent (keep : nat -> bool) (c1 c2 : kernel_cpustat)
      (l : list nat) :
  (forall index, In index l ->
                 to_ulong abi (nth index (cpustat c1) 0)
                 = to_ulong abi (nth index (cpustat c2) 0)) ->
  to_ulong abi (exact_slot_sum keep c1 l) = to_ulong abi (exact_slot_sum keep c2 l).
Proof.
  induction l as [ | index l IH]; intros Hl; cbn [exact_slot_sum fold_right].
  - reflexivity.
  - fold (exact_slot_sum keep c1 l); fold (exact_slot_sum keep c2 l).
    rewrite <- (add_ulong_to_ulong abi _ (exact_slot_sum keep c1 l)).
    rewrite <- (add_ulong_to_ulong abi _ (exact_slot_sum keep c2 l)).
    rewrite (IH (fun i Hi => Hl i (or_intror Hi))).
    destruct (keep index); [ | reflexivity].
    rewrite (Hl index (or_introl eq_refl)); reflexivity.
Qed.

Lemma exact_sum_congruent (keep : nat -> bool) (k1 k2 : nat -> kernel_cpustat)
      (l : list nat) :
  (forall cpu_id index,
      In cpu_id l -> (index < NR_STATS sched_core)%nat ->
      to_ulong abi (nth index (cpustat (k1 cpu_id)) 0)
      = to_ulong abi (nth index (cpustat (k2 cpu_id)) 0)) ->
  to_ulong abi (exact_sum sched_core keep (mk_cpu_view l k1))
  = to_ulong abi (exact_sum sched_core keep (mk_cpu_view l k2)).
Proof.
  induction l as [ | cpu_id l IH]; intros Hl.
  - reflexivity.
  - rewrite !exact_sum_cons.
    rewrite <- (add_ulong_to_ulong abi (exact_cpu_sum sched_core keep (k1 cpu_id))).
    rewrite <- (add_ulong_to_ulong abi (exact_cpu_sum sched_core keep (k2 cpu_id))).
    rewrite (IH (fun c i Hc Hi => Hl c i (or_intror Hc) Hi)).
    unfold exact_cpu_sum.
    rewrite (exact_slot_sum_congruent keep (k1 cpu_id) (k2 cpu_id)); [reflexivity | ].
    intros index Hin; apply in_seq in Hin.
    apply (Hl cpu_id index (or_introl eq_refl)); lia.
Qed.

End SamplingComposition.

(** X1: the order in which [for_each_online_cpu] visits the CPUs does
    not change what the sampler returns. *)
Theorem sampler_order_irrelevant (abi : long_abi) (sched_core : bool)
        (kcpustat : nat -> kernel_cpustat) (l1 l2 : list nat) :
  Permutation l1 l2 ->
  get_cpu_stats abi sched_core (mk_cpu_view l1 kcpustat)
  = get_cpu_stats abi sched_core (mk_cpu_view l2 kcpustat).
Proof.
  intros Hperm.
  rewrite !get_cpu_stats_sums.
  rewrite (exact_sum_permutation sched_core every_stat kcpustat l1 l2 Hperm).
  rewrite (exact_sum_permutation sched_core is_relevant_stat kcpustat l1 l2 Hperm).
  reflexivity.
Qed.

(** The two CPUs of [two_cpus], visited in either order. *)
Lemma sampler_order_irrelevant_witness :
  get_cpu_stats LP64 false (mk_cpu_view [0%nat; 1%nat] (kcpustat_cpu two_cpus))
  = get_cpu_stats LP64 false (mk_cpu_view [1%nat; 0%nat] (kcpustat_cpu two_cpus)).
Proof.
  apply (sampler_order_irrelevant LP64 false (kcpustat_cpu two_cpus)
                                  [0%nat; 1%nat] [1%nat; 0%nat]).
  apply perm_swap.
Defined.

(** X2: sampling two groups of CPUs together gives the sums, in
    unsigned long arithmetic, of what sampling each group gives; a CPU
    that comes online adds its own slots and leaves the contribution of
    the others as it was. *)
Theorem sampler_adds_over_cpus (abi : long_abi) (sched_core : bool)
        (kcpustat : nat -> kernel_cpustat) (l1 l2 : list nat) :
  get_cpu_stats abi sched_core (mk_cpu_view (l1 ++ l2) kcpustat)
  = (add_ulong abi
       (fst (get_cpu_stats abi sched_core (mk_cpu_view l1 kcpustat)))
       (fst (get_cpu_stats abi sched_core (mk_cpu_view l2 kcpustat))),
     add_ulong abi
       (snd (get_cpu_stats abi sched_core (mk_cpu_view l1 kcpustat)))
       (snd (get_cpu_stats abi sched_core (mk_cpu_view l2 kcpustat)))).
Proof.
  rewrite !get_cpu_stats_sums; cbn [fst snd].
  rewrite !add_ulong_to_ulong, !exact_sum_app; reflexivity.
Qed.

(** X3: what the total holds beyond the relevant part is, modulo 2^w,
    the sum of the idle, iowait, guest, guest-nice and (when configured)
    forced-idle slots of the online CPUs: every slot read is counted as
    relevant or as one of these, never as both. *)
Theorem sampler_idle_remainder (abi : long_abi) (sched_core : bool)
        (cpus : cpu_view) :
  sub_ulong abi (fst (get_cpu_stats abi sched_core cpus))
                (snd (get_cpu_stats abi sched_core cpus))
  = to_ulong abi (exact_sum sched_core is_idle_stat cpus).
Proof.
  rewrite get_cpu_stats_sums; cbn [fst snd].
  rewrite sub_ulong_to_ulong, exact_sum_split.
  f_equal; lia.
Qed.

(** X4: the sampler sees a slot only through its conversion to
    [unsigned long]: two views whose slots agree after the conversion
    give the same pair, so on a 32-bit kernel the upper half of every
    [u64] slot is lost. *)
Theorem sampler_reads_slots_as_ulong (abi : long_abi) (sched_core : bool)
        (v1 v2 : cpu_view) :
  slots_agree_as_ulong abi sched_core v1 v2 ->
  get_cpu_stats abi sched_core v1 = get_cpu_stats abi sched_core v2.
Proof.
  destruct v1 as [l1 k1], v2 as [l2 k2].
  unfold slots_agree_as_ulong; cbn [online_cpus kcpustat_cpu].
  intros [<- Hslots].
  rewrite !get_cpu_stats_sums.
  rewrite (exact_sum_congruent abi sched_core every_stat k1 k2 l1 Hslots).
  rewrite (exact_sum_congruent abi sched_core is_relevant_stat k1 k2 l1 Hslots).
  reflexivity.
Qed.

(** A user-mode slot of 2^32 + 5 reads as 5 on a 32-bit kernel. *)
Lemma sampler_reads_slots_as_ulong_witness :
  get_cpu_stats ILP32 false wide_slot_cpu
  = get_cpu_stats ILP32 false narrow_slot_cpu.
Proof.
  apply (sampler_reads_slots_as_ulong ILP32 false wide_slot_cpu narrow_slot_cpu).
  split; [reflexivity | ].
  intros cpu_id index _ Hindex.
  cbn [wide_slot_cpu narrow_slot_cpu kcpustat_cpu cpustat].
  do 10 (destruct index as [ | index]; [vm_compute; reflexivity | ]).
  cbn in Hindex; lia.
Defined.

(** The same two views are told apart on a 64-bit kernel. *)
Example wide_slot_on_lp64 :
  get_cpu_stats LP64 false wide_slot_cpu = (2 ^ 32 + 12, 2 ^ 32 + 5)
  /\ get_cpu_stats LP64 false narrow_slot_cpu = (12, 5).
Proof. split; vm_compute; reflexivity. Qed.

(** ** The load: rounding, overflow, consecutive measurements *)

(** X5: while the product 100 * relevantDelta fits an unsigned long and
    the relevant difference does not exceed the total one, the printed
    value is the real percentage rounded down: it is off by less than
    one point, it is 100 only when the whole difference was relevant,
    and it is 0 exactly when the relevant part is below one percent. *)
Theorem load_percent_rounds_down (abi : long_abi) (td rd : Z) :
  0 < td -> 0 <= rd <= td -> 100 * rd <= ULONG_MAX abi ->
  exists p,
    load_percent abi td rd = Some p
    /\ p * td <= 100 * rd < (p + 1) * td
    /\ (p = 100 <-> rd = td)
    /\ (p = 0 <-> 100 * rd < td).
Proof.
  intros Htd Hrd Hfit.
  rewrite load_percent_value by lia.
  destruct (td =? 0) eqn:Hz; [apply Z.eqb_eq in Hz; lia | ].
  unfold mul_ulong.
  rewrite to_ulong_small by (unfold is_ulong, ULONG_MAX in *; lia).
  eexists; split; [reflexivity | ].
  pose proof (Z.div_mod (100 * rd) td ltac:(lia)) as Hdiv.
  pose proof (Z.mod_pos_bound (100 * rd) td Htd) as Hmod.
  assert (0 <= 100 * rd / td) as Hq by (apply Z.div_pos; lia).
  repeat split; try nia.
Qed.

Lemma load_percent_rounds_down_witness :
  exists p,
    load_percent LP64 300 200 = Some p
    /\ p * 300 <= 100 * 200 < (p + 1) * 300
    /\ (p = 100 <-> 200 = 300)
    /\ (p = 0 <-> 100 * 200 < 300).
Proof.
  apply (load_percent_rounds_down LP64 300 200);
    unfold ULONG_MAX, ulong_modulus; cbn; lia.
Defined.

(** X6: when the product 100 * relevantDelta exceeds the unsigned long
    range (and the relevant difference does not exceed the total one) the
    printed value is below 50; a printed value of 50 or more is therefore
    never the result of a wrapped product. *)
Theorem wrapped_product_prints_below_50 (abi : long_abi) (td rd : Z) :
  0 < rd <= td -> ULONG_MAX abi < 100 * rd ->
  exists p, load_percent abi td rd = Some p /\ 0 <= p < 50.
Proof.
  intros Hrd Hover.
  rewrite load_percent_value by lia.
  destruct (td =? 0) eqn:Hz; [apply Z.eqb_eq in Hz; lia | ].
  eexists; split; [reflexivity | ].
  pose proof (ulong_modulus_pos abi) as HM.
  pose proof (to_ulong_range abi (100 * rd)) as [Hlo Hhi].
  pose proof (Z.div_mod (100 * rd) (ulong_modulus abi) ltac:(lia)) as Hdiv.
  fold (to_ulong abi (100 * rd)) in Hdiv.
  fold (mul_ulong abi 100 rd) in Hlo, Hhi, Hdiv.
  assert (1 <= 100 * rd / ulong_modulus abi) as Hk.
  { apply Z.div_le_lower_bound; unfold ULONG_MAX in Hover; lia. }
  assert (mul_ulong abi 100 rd < 50 * rd) as Hhalf by nia.
  split.
  - apply Z.div_pos; lia.
  - apply Z.div_lt_upper_bound; nia.
Qed.

Lemma wrapped_product_prints_below_50_witness :
  exists p,
    load_percent LP64 (2 ^ 64 - 1) (2 ^ 63) = Some p /\ 0 <= p < 50.
Proof.
  apply (wrapped_product_prints_below_50 LP64 (2 ^ 64 - 1) (2 ^ 63));
    unfold ULONG_MAX, ulong_modulus; cbn; lia.
Defined.

(** X7: the differences of two consecutive measurements add up, in
    unsigned long arithmetic, to the differences of the one measurement
    that spans both, also across a wrap of the counters. *)
Theorem consecutive_differences_add_up (abi : long_abi)
        (t0 r0 t1 r1 t2 r2 : Z) :
  exists u1 u2 u,
    compute_usage abi t0 r0 t1 r1 = Some u1
    /\ compute_usage abi t1 r1 t2 r2 = Some u2
    /\ compute_usage abi t0 r0 t2 r2 = Some u
    /\ total_jiffies_diff u
       = add_ulong abi (total_jiffies_diff u1) (total_jiffies_diff u2)
    /\ relevant_jiffies_diff u
       = add_ulong abi (relevant_jiffies_diff u1) (relevant_jiffies_diff u2).
Proof.
  rewrite !compute_usage_value.
  do 3 eexists; do 3 (split; [reflexivity | ]).
  cbn [total_jiffies_diff relevant_jiffies_diff].
  unfold sub_ulong; rewrite !add_ulong_to_ulong.
  split; f_equal; lia.
Qed.

Section AdvancingCounters.

Variable sched_core : bool.



End AdvancingCounters.



(** ** The loaded module: what every reachable state satisfies *)

(** Reading off what an event did to a state given by its fields. *)
Ltac invert_step H :=
  cbn [step globals loaded work_pending worker unloading calls] in H;
  rewrite ?report_work_measure_value in H; cbv zeta in H;
  cbn [is_none andb] in H;
  first [discriminate H | injection H as <-].

Ltac fields :=
  cbn [globals loaded work_pending worker unloading calls
       set_last_jiffies set_should_run set_work_queue
       cpu_usage_report_period cpu_usage_report_work_queue
       should_work_still_run last_total_jiffies last_relevant_jiffies] in *.

Section Reachable.

Variable abi : long_abi.
Variable sched_core : bool.
Variable HZ : Z.

(** A property kept by every event is kept by every sequence of them. *)
Lemma exec_keeps (P : system -> Prop) :
  (forall e s s', step abi sched_core HZ e s = Some s' -> P s -> P s') ->
  forall evs s s', exec abi sched_core HZ evs s = Some s' -> P s -> P s'.
Proof.
  intros Hstep; induction evs as [ | e evs IH]; intros s s' Hexec HP;
    cbn [exec] in Hexec.
  - injection Hexec as <-; exact HP.
  - destruct (step abi sched_core HZ e s) as [s1 | ] eqn:He; [ | discriminate].
    apply (IH s1 s' Hexec), (Hstep e s s1 He HP).
Qed.

Lemma well_formed_after_init (wq : workqueue) (cpus : cpu_view) (period : Z) :
  well_formed abi wq period
              (system_after_init abi sched_core HZ (Some wq) cpus period).
Proof.
  unfold well_formed, system_after_init, cpu_usage_init.
  pose proof (get_cpu_stats_range abi sched_core cpus) as [Ht Hr].
  destruct (get_cpu_stats abi sched_core cpus) as [t r]; cbn [fst snd] in Ht, Hr.
  cbn; repeat split; try assumption; apply Ht || apply Hr.
Qed.

Lemma well_formed_step (wq : workqueue) (period : Z) (e : event) (s s' : system) :
  step abi sched_core HZ e s = Some s' ->
  well_formed abi wq period s -> well_formed abi wq period s'.
Proof.
  intros Hstep (Hwq & Hper & Hl & Hpw & Hflag & Ht & Hr).
  destruct s as [g l p w u c]; fields.
  pose proof (fun cpus => proj1 (get_cpu_stats_range abi sched_core cpus)) as Ht'.
  pose proof (fun cpus => proj2 (get_cpu_stats_range abi sched_core cpus)) as Hr'.
  destruct e, w as [[ | | ] | ], u, p, l; invert_step Hstep;
    unfold well_formed; fields;
    repeat split;
    try assumption; try reflexivity; try discriminate;
    try (specialize (Hpw eq_refl); discriminate);
    try (intros Hu; discriminate Hu);
    try (intros Hu; apply Hflag; exact Hu);
    try apply Ht; try apply Hr; try apply Ht'; try apply Hr'.
Qed.

Lemma well_formed_exec (wq : workqueue) (cpus : cpu_view) (period : Z)
      (evs : list event) (s : system) :
  exec abi sched_core HZ evs
       (system_after_init abi sched_core HZ (Some wq) cpus period) = Some s ->
  well_formed abi wq period s.
Proof.
  intros Hexec.
  apply (exec_keeps (well_formed abi wq period)
                    (well_formed_step wq period) evs _ s Hexec).
  apply well_formed_after_init.
Qed.

End Reachable.

Section ReachableCalls.

Variable abi : long_abi.
Variable sched_core : bool.
Variable HZ : Z.

Lemma calls_expected_after_init (wq : workqueue) (cpus : cpu_view) (period : Z) :
  calls_expected abi HZ wq period
                 (system_after_init abi sched_core HZ (Some wq) cpus period).
Proof.
  split; [apply well_formed_after_init | ].
  unfold system_after_init, cpu_usage_init.
  destruct (get_cpu_stats abi sched_core cpus) as [t r].
  cbn; repeat constructor.
Qed.

Lemma calls_expected_step (wq : workqueue) (period : Z) (e : event) (s s' : system) :
  step abi sched_core HZ e s = Some s' ->
  calls_expected abi HZ wq period s -> calls_expected abi HZ wq period s'.
Proof.
  intros Hstep [Hwf Hcalls].
  split; [apply (well_formed_step abi sched_core HZ wq period e s s' Hstep Hwf) | ].
  destruct Hwf as (Hwq & Hper & _).
  destruct s as [g l p w u c]; fields.
  destruct e, w as [[ | | ] | ], u, p, l; invert_step Hstep; fields;
    try assumption;
    (apply Forall_app; split; [assumption | ]);
    repeat constructor; cbn [call_expected]; unfold report_delay;
    try assumption; try (rewrite Hper; reflexivity); auto.
Qed.

Lemma calls_expected_exec (wq : workqueue) (cpus : cpu_view) (period : Z)
      (evs : list event) (s : system) :
  exec abi sched_core HZ evs
       (system_after_init abi sched_core HZ (Some wq) cpus period) = Some s ->
  calls_expected abi HZ wq period s.
Proof.
  intros Hexec.
  apply (exec_keeps abi sched_core HZ (calls_expected abi HZ wq period)
                    (calls_expected_step wq period) evs _ s Hexec).
  apply calls_expected_after_init.
Qed.

Lemma exit_tracked_after_init (wq : workqueue) (cpus : cpu_view) (period : Z) :
  exit_tracked abi wq period
               (system_after_init abi sched_core HZ (Some wq) cpus period).
Proof.
  split; [apply well_formed_after_init | split; [apply drained_after_init | ]].
  unfold system_after_init, cpu_usage_init.
  destruct (get_cpu_stats abi sched_core cpus) as [t r]; exact I.
Qed.

Lemma exit_tracked_step (wq : workqueue) (period : Z) (e : event) (s s' : system) :
  step abi sched_core HZ e s = Some s' ->
  exit_tracked abi wq period s -> exit_tracked abi wq period s'.
Proof.
  intros Hstep (Hwf & Hdr & Htrail).
  split; [apply (well_formed_step abi sched_core HZ wq period e s s' Hstep Hwf) | ].
  split; [apply (drained_step abi sched_core HZ e s s' Hstep Hdr) | ].
  destruct Hwf as (Hwq & _).
  unfold drained, cancel_returned in Hdr; unfold exit_trail in *.
  destruct s as [g l p w u c]; fields.
  destruct e, w as [[ | | ] | ], u, p, l; invert_step Hstep; fields;
    try exact I;
    try (destruct (Hdr eq_refl) as [Hp Hw]; discriminate);
    try (exists c; reflexivity).
  all: destruct Htrail as [cs ->]; exists cs;
    rewrite Hwq, <- app_assoc; reflexivity.
Qed.

Lemma exit_tracked_exec (wq : workqueue) (cpus : cpu_view) (period : Z)
      (evs : list event) (s : system) :
  exec abi sched_core HZ evs
       (system_after_init abi sched_core HZ (Some wq) cpus period) = Some s ->
  exit_tracked abi wq period s.
Proof.
  intros Hexec.
  apply (exec_keeps abi sched_core HZ (exit_tracked abi wq period)
                    (exit_tracked_step wq period) evs _ s Hexec).
  apply exit_tracked_after_init.
Qed.

End ReachableCalls.

Section ReportsAfterStop.

Variable abi : long_abi.
Variable sched_core : bool.
Variable HZ : Z.

Lemma count_reports_app (cs ds : list kcall) :
  count_reports (cs ++ ds) = (count_reports cs + count_reports ds)%nat.
Proof. unfold count_reports; rewrite filter_app, length_app; reflexivity. Qed.

Lemma runs_in_flight_le_1 (s : system) :
  (work_pending s = true -> worker s = None) -> (runs_in_flight s <= 1)%nat.
Proof.
  unfold runs_in_flight; intros Hpw.
  destruct (work_pending s).
  - rewrite (Hpw eq_refl); lia.
  - destruct (worker s) as [[ | | ] | ]; lia.
Qed.

Lemma reports_bounded_step (bound : nat) (e : event) (s s' : system) :
  step abi sched_core HZ e s = Some s' ->
  reports_bounded bound s -> reports_bounded bound s'.
Proof.
  unfold reports_bounded; intros Hstep (Hpw & Hflag & Hbound).
  destruct s as [g l p w u c]; fields.
  destruct e, w as [[ | | ] | ], u, p, l; invert_step Hstep; fields;
    rewrite ?count_reports_app; rewrite ?Hflag;
    unfold runs_in_flight, count_reports in *;
    cbn [work_pending worker filter is_report length app
         report_work_requeue] in *;
    repeat split;
    try assumption; try reflexivity; try discriminate;
    try (specialize (Hpw eq_refl); discriminate);
    try lia.
Qed.

End ReportsAfterStop.



(** X10: every [queue_delayed_work] a loaded module ever calls names
    the workqueue that [alloc_workqueue] returned and the delay
    [HZ * period] reduced modulo 2^32, every load line names the period
    set at load time, and the workqueue destroyed is the allocated one;
    in particular no call is ever made on a NULL workqueue. *)
Theorem calls_carry_expected_arguments
        (abi : long_abi) (sched_core : bool) (HZ : Z)
        (wq : workqueue) (cpus : cpu_view) (period : Z)
        (evs : list event) (s : system) :
  exec abi sched_core HZ evs
       (system_after_init abi sched_core HZ (Some wq) cpus period) = Some s ->
  Forall (call_expected HZ wq period) (calls s).
Proof.
  intros Hexec.
  exact (proj2 (calls_expected_exec abi sched_core HZ wq cpus period evs s Hexec)).
Qed.

Lemma calls_carry_expected_arguments_witness :
  exists s,
    exec LP64 false 250
         [ev_work_start; ev_measure two_cpus_later; ev_flag_check; ev_requeue;
          ev_exit_begin; ev_exit_cancel; ev_exit_destroy]
         (system_after_init LP64 false 250 (Some 1%nat) two_cpus 10)
    = Some s
    /\ Forall (call_expected 250 1%nat 10) (calls s).
Proof.
  assert (exists s,
             exec LP64 false 250
                  [ev_work_start; ev_measure two_cpus_later; ev_flag_check;
                   ev_requeue; ev_exit_begin; ev_exit_cancel; ev_exit_destroy]
                  (system_after_init LP64 false 250 (Some 1%nat) two_cpus 10)
             = Some s) as (s & Hrun).
  { eexists; vm_compute; reflexivity. }
  exists s; split; [exact Hrun | ].
  exact (calls_carry_expected_arguments LP64 false 250 1%nat two_cpus 10 _ s Hrun).
Defined.

(** X11: once [cpu_usage_exit] has lowered the flag, at most one more
    load line is printed, whatever the worker and the unloading thread do
    and however they interleave. *)
Theorem at_most_one_report_after_stop
        (abi : long_abi) (sched_core : bool) (HZ : Z)
        (wq : workqueue) (cpus : cpu_view) (period : Z)
        (evs evs' : list event) (s s' : system) :
  exec abi sched_core HZ evs
       (system_after_init abi sched_core HZ (Some wq) cpus period) = Some s ->
  unloading s <> exit_not_called ->
  exec abi sched_core HZ evs' s = Some s' ->
  (count_reports (calls s') <= count_reports (calls s) + 1)%nat.
Proof.
  intros Hexec Hexit Hexec'.
  destruct (well_formed_exec abi sched_core HZ wq cpus period evs s Hexec)
    as (_ & _ & _ & Hpw & _).
  pose proof (flag_cleared_exec abi sched_core HZ evs _ s Hexec
                (flag_cleared_after_init abi sched_core HZ _ _ _) Hexit) as Hflag.
  pose proof (runs_in_flight_le_1 s Hpw) as Hone.
  assert (reports_bounded (count_reports (calls s) + runs_in_flight s) s) as Hb.
  { repeat split; [exact Hpw | exact Hflag | lia]. }
  destruct (exec_keeps abi sched_core HZ _
              (reports_bounded_step abi sched_core HZ _) evs' s s' Hexec' Hb)
    as (_ & _ & Hbound).
  lia.
Qed.

(** The flag is lowered while a run is about to measure: the run prints
    its line, and no other line follows. *)
Lemma at_most_one_report_after_stop_witness :
  exists s s',
    exec LP64 false 250 [ev_work_start; ev_exit_begin]
         (system_after_init LP64 false 250 (Some 1%nat) two_cpus 10)
    = Some s
    /\ exec LP64 false 250
            [ev_measure two_cpus_later; ev_flag_check; ev_exit_cancel] s
       = Some s'
    /\ (count_reports (calls s') <= count_reports (calls s) + 1)%nat.
Proof.
  assert (exists s s',
             exec LP64 false 250 [ev_work_start; ev_exit_begin]
                  (system_after_init LP64 false 250 (Some 1%nat) two_cpus 10)
             = Some s
             /\ unloading s <> exit_not_called
             /\ exec LP64 false 250
                     [ev_measure two_cpus_later; ev_flag_check; ev_exit_cancel] s
                = Some s') as (s & s' & Hrun & Hexit & Hrun').
  { eexists; eexists; split; [vm_compute; reflexivity | ].
    split; [discriminate | vm_compute; reflexivity]. }
  exists s, s'; split; [exact Hrun | split; [exact Hrun' | ]].
  exact (at_most_one_report_after_stop LP64 false 250 1%nat two_cpus 10
           _ _ s s' Hrun Hexit Hrun').
Defined.

(** X12: when [cpu_usage_exit] has returned nothing can happen any
    more, and the calls of the module end with the cancellation, the
    destruction of the allocated workqueue and the closing line, in this
    order: the workqueue is destroyed only after the work item was
    drained and nothing is called on it afterwards. *)
Theorem unload_is_final
        (abi : long_abi) (sched_core : bool) (HZ : Z)
        (wq : workqueue) (cpus : cpu_view) (period : Z)
        (evs : list event) (s : system) :
  exec abi sched_core HZ evs
       (system_after_init abi sched_core HZ (Some wq) cpus period) = Some s ->
  unloading s = exit_returned ->
  (forall e, step abi sched_core HZ e s = None)
  /\ exists cs,
      calls s = cs ++ [cancel_delayed_work_sync;
                       destroy_workqueue (Some wq);
                       pr_info msg_disabled].
Proof.
  intros Hexec Hdone.
  destruct (exit_tracked_exec abi sched_core HZ wq cpus period evs s Hexec)
    as (_ & Hdr & Htrail).
  unfold drained, cancel_returned, exit_trail in *.
  rewrite Hdone in *.
  destruct (Hdr eq_refl) as [Hp Hw].
  split; [ | exact Htrail].
  intros e; destruct e; cbn [step]; rewrite ?Hp, ?Hw, ?Hdone; reflexivity.
Qed.

Lemma unload_is_final_witness :
  exists s,
    exec LP64 false 250
         [ev_work_start; ev_measure two_cpus_later; ev_flag_check; ev_requeue;
          ev_exit_begin; ev_exit_cancel; ev_exit_destroy]
         (system_after_init LP64 false 250 (Some 1%nat) two_cpus 10)
    = Some s
    /\ (forall e, step LP64 false 250 e s = None)
    /\ exists cs,
        calls s = cs ++ [cancel_delayed_work_sync;
                         destroy_workqueue (Some 1%nat);
                         pr_info msg_disabled].
Proof.
  assert (exists s,
             exec LP64 false 250
                  [ev_work_start; ev_measure two_cpus_later; ev_flag_check;
                   ev_requeue; ev_exit_begin; ev_exit_cancel; ev_exit_destroy]
                  (system_after_init LP64 false 250 (Some 1%nat) two_cpus 10)
             = Some s
             /\ unloading s = exit_returned) as (s & Hrun & Hdone).
  { eexists; split; vm_compute; reflexivity. }
  exists s; split; [exact Hrun | ].
  exact (unload_is_final LP64 false 250 1%nat two_cpus 10 _ s Hrun Hdone).
Defined.

(** X13: from every state a loaded module can reach before
    [cpu_usage_exit] is called, the unloading runs to its end within
    five events: a run of the work item that is under way finishes, the
    cancellation returns, and the work item is left neither pending nor
    executing. *)
Theorem unload_always_completes
        (abi : long_abi) (sched_core : bool) (HZ : Z)
        (wq : workqueue) (cpus : cpu_view) (period : Z)
        (evs : list event) (s : system) :
  exec abi sched_core HZ evs
       (system_after_init abi sched_core HZ (Some wq) cpus period) = Some s ->
  unloading s = exit_not_called ->
  exists evs' s',
    (length evs' <= 5)%nat
    /\ exec abi sched_core HZ evs' s = Some s'
    /\ unloading s' = exit_returned
    /\ work_pending s' = false /\ worker s' = None.
Proof.
  intros Hexec Hnot.
  destruct (well_formed_exec abi sched_core HZ wq cpus period evs s Hexec)
    as (_ & _ & Hloaded & _).
  destruct (exit_can_complete abi sched_core HZ s Hloaded Hnot)
    as (s' & Hrun & Hdone & Hp & Hw).
  exists (exit_events (worker s)), s'.
  split; [ | repeat split; assumption].
  destruct (worker s) as [[ | | ] | ]; cbn; lia.
Qed.

Lemma unload_always_completes_witness :
  exists s evs' s',
    exec LP64 false 250 [ev_work_start]
         (system_after_init LP64 false 250 (Some 1%nat) two_cpus 10)
    = Some s
    /\ (length evs' <= 5)%nat
    /\ exec LP64 false 250 evs' s = Some s'
    /\ unloading s' = exit_returned
    /\ work_pending s' = false /\ worker s' = None.
Proof.
  assert (exists s,
             exec LP64 false 250 [ev_work_start]
                  (system_after_init LP64 false 250 (Some 1%nat) two_cpus 10)
             = Some s
             /\ unloading s = exit_not_called) as (s & Hrun & Hnot).
  { eexists; split; vm_compute; reflexivity. }
  destruct (unload_always_completes LP64 false 250 1%nat two_cpus 10 _ s Hrun Hnot)
    as (evs' & s' & Hafter).
  exists s, evs', s'; split; [exact Hrun | exact Hafter].
Defined.

(** X14: after a successful [cpu_usage_init] the first run of the work
    item prints the load measured against the counters fetched by
    [cpu_usage_init], stores its own counters and queues itself again on
    the allocated workqueue with the same delay; the calls made up to
    then are exactly the enabling line, the first queueing, the load
    line and the second queueing. *)
Theorem first_tick_measures_against_init
        (abi : long_abi) (sched_core : bool) (HZ : Z)
        (wq : workqueue) (at_init at_tick : cpu_view) (period : Z) :
  exists s u,
    exec abi sched_core HZ (ev_work_start :: tick_events at_tick true)
         (system_after_init abi sched_core HZ (Some wq) at_init period)
    = Some s
    /\ compute_usage abi
                     (fst (get_cpu_stats abi sched_core at_init))
                     (snd (get_cpu_stats abi sched_core at_init))
                     (fst (get_cpu_stats abi sched_core at_tick))
                     (snd (get_cpu_stats abi sched_core at_tick))
       = Some u
    /\ calls s
       = [pr_info (msg_enabled period);
          queue_delayed_work (Some wq) ((HZ * period) mod uint_modulus);
          pr_info (msg_average_load period (percent u));
          queue_delayed_work (Some wq) ((HZ * period) mod uint_modulus)]
    /\ (last_total_jiffies (globals s), last_relevant_jiffies (globals s))
       = get_cpu_stats abi sched_core at_tick
    /\ work_pending s = true /\ worker s = None.
Proof.
  unfold system_after_init, cpu_usage_init, tick_events.
  rewrite compute_usage_value.
  destruct (get_cpu_stats abi sched_core at_init) as [t0 r0].
  cbn [fst snd initial_state set_work_queue set_last_jiffies
       cpu_usage_report_period cpu_usage_report_work_queue
       should_work_still_run last_total_jiffies last_relevant_jiffies
       existsb is_queue_call orb Z.eqb].
  cbn [exec step work_pending worker is_none andb globals loaded unloading calls].
  rewrite report_work_measure_value; cbv zeta.
  cbn [exec step work_pending worker is_none andb globals loaded unloading calls
       set_last_jiffies cpu_usage_report_period cpu_usage_report_work_queue
       should_work_still_run last_total_jiffies last_relevant_jiffies
       report_work_requeue report_delay app].
  eexists; eexists; split; [reflexivity | ].
  split; [reflexivity | ].
  cbn [calls globals work_pending worker percent last_total_jiffies
       last_relevant_jiffies].
  split; [reflexivity | ].
  split; [symmetry; apply surjective_pairing | split; reflexivity].
Qed.

Section QueuedRuns.

Variable abi : long_abi.
Variable sched_core : bool.
Variable HZ : Z.

Lemma count_queues_app (cs ds : list kcall) :
  count_queues (cs ++ ds) = (count_queues cs + count_queues ds)%nat.
Proof. unfold count_queues; rewrite filter_app, length_app; reflexivity. Qed.

Lemma reports_covered_after_init (wq : workqueue) (cpus : cpu_view) (period : Z) :
  reports_covered (system_after_init abi sched_core HZ (Some wq) cpus period).
Proof.
  unfold reports_covered, system_after_init, cpu_usage_init.
  destruct (get_cpu_stats abi sched_core cpus) as [t r]; cbn; lia.
Qed.

Lemma reports_covered_step (e : event) (s s' : system) :
  step abi sched_core HZ e s = Some s' ->
  reports_covered s -> reports_covered s'.
Proof.
  unfold reports_covered; intros Hstep Hcov.
  destruct s as [g l p w u c]; fields.
  destruct e, w as [[ | | ] | ], u, p, l; invert_step Hstep; fields;
    rewrite ?count_reports_app, ?count_queues_app;
    try destruct (should_work_still_run g);
    unfold count_reports, count_queues in *;
    cbn [filter is_report is_queue_call length app report_work_requeue] in *;
    lia.
Qed.

End QueuedRuns.

(** X15: a loaded module never prints more load lines than it has
    queued the work item: every run of [report_work_main] consumes a
    queueing of its own, so one queueing never leads to two reports. *)
Theorem reports_never_exceed_queueings
        (abi : long_abi) (sched_core : bool) (HZ : Z)
        (wq : workqueue) (cpus : cpu_view) (period : Z)
        (evs : list event) (s : system) :
  exec abi sched_core HZ evs
       (system_after_init abi sched_core HZ (Some wq) cpus period) = Some s ->
  (count_reports (calls s) <= count_queues (calls s))%nat.
Proof.
  intros Hexec.
  pose proof (exec_keeps abi sched_core HZ reports_covered
                (reports_covered_step abi sched_core HZ) evs _ s Hexec
                (reports_covered_after_init abi sched_core HZ wq cpus period))
    as Hcov.
  unfold reports_covered in Hcov; lia.
Qed.

Lemma reports_never_exceed_queueings_witness :
  exists s,
    exec LP64 false 250
         [ev_work_start; ev_measure two_cpus_later; ev_flag_check; ev_requeue;
          ev_work_start; ev_measure two_cpus_later]
         (system_after_init LP64 false 250 (Some 1%nat) two_cpus 10)
    = Some s
    /\ (count_reports (calls s) <= count_queues (calls s))%nat.
Proof.
  assert (exists s,
             exec LP64 false 250
                  [ev_work_start; ev_measure two_cpus_later; ev_flag_check;
                   ev_requeue; ev_work_start; ev_measure two_cpus_later]
                  (system_after_init LP64 false 250 (Some 1%nat) two_cpus 10)
             = Some s) as (s & Hrun).
  { eexists; vm_compute; reflexivity. }
  exists s; split; [exact Hrun | ].
  exact (reports_never_exceed_queueings LP64 false 250 1%nat two_cpus 10 _ s Hrun).
Defined.
